(** * create_db.py: from a three-row sheet to a CREATE TABLE statement

    A shallow embedding of [src/create_db.py] and the properties of its
    pipeline: identifier quoting, type mapping, delimiter sniffing, the
    three-row reader with its row-swap heuristic, and the DDL assembler.

    Python's [str] is modelled by [string]; a character is read as the code
    point of the same number, so the model covers exactly the texts whose
    code points are below 256.  On that range [isspace] and [lower] below
    are the tables of [str.isspace] and [str.lower]. *)

From Stdlib Require Import String Ascii List Bool Arith NArith Lia DecimalString.
Import ListNotations.
Open Scope string_scope.

(* ================================================================== *)
(** * Part I: definitions                                              *)
(* ================================================================== *)

(** ** Python string primitives used by the script *)

Module Py.

Definition LF : ascii := "010"%char.
Definition CR : ascii := "013"%char.
Definition TAB : ascii := "009"%char.
Definition DQUOTE : ascii := "034"%char.

Definition code (c : ascii) : N := N_of_ascii c.

Definition in_range (lo hi : N) (c : ascii) : bool :=
  ((lo <=? code c) && (code c <=? hi))%N.

(** [str.isspace] on one character, which is also what [\s] matches in a
    [str] pattern: U+0009..U+000D, U+001C..U+0020, U+0085 and U+00A0. *)
Definition isspace (c : ascii) : bool :=
  in_range 9 13 c || in_range 28 32 c || (code c =? 133)%N || (code c =? 160)%N.

(** The line boundaries of [str.splitlines]: LF, VT, FF, CR, FS, GS, RS and
    NEL (U+001F is white space but no line boundary). *)
Definition is_linebreak (c : ascii) : bool :=
  in_range 10 13 c || in_range 28 30 c || (code c =? 133)%N.

(** [str.lower] on one character: A-Z and the Latin-1 capitals U+00C0..U+00DE
    (U+00D7, the multiplication sign, apart) move up by 32. *)
Definition lower_char (c : ascii) : ascii :=
  if in_range 65 90 c || in_range 192 214 c || in_range 216 222 c
  then ascii_of_N (code c + 32)
  else c.

Fixpoint lower (s : string) : string :=
  match s with
  | EmptyString => EmptyString
  | String c r => String (lower_char c) (lower r)
  end.

Fixpoint lstrip (s : string) : string :=
  match s with
  | EmptyString => EmptyString
  | String c r => if isspace c then lstrip r else s
  end.

Fixpoint rstrip (s : string) : string :=
  match s with
  | EmptyString => EmptyString
  | String c r =>
      match rstrip r with
      | EmptyString => if isspace c then EmptyString else String c EmptyString
      | r' => String c r'
      end
  end.

(** [s.strip()] *)
Definition strip (s : string) : string := rstrip (lstrip s).

(** Truthiness of a [str]: [if s], [not s], [s or t]. *)
Definition truthy (s : string) : bool :=
  match s with EmptyString => false | String _ _ => true end.

(** [re.sub(r"\s+", " ", s)]: every maximal run of white space becomes one
    space.  [in_run] tells that the previous character was white space, whose
    run has been replaced already. *)
Fixpoint sub_ws (in_run : bool) (s : string) : string :=
  match s with
  | EmptyString => EmptyString
  | String c r =>
      if isspace c
      then if in_run then sub_ws true r else String " " (sub_ws true r)
      else String c (sub_ws false r)
  end.

Definition re_sub_ws (s : string) : string := sub_ws false s.

(** [s.replace(DQUOTE, DQUOTE DQUOTE)] *)
Fixpoint replace_dquote (s : string) : string :=
  match s with
  | EmptyString => EmptyString
  | String c r =>
      if Ascii.eqb c DQUOTE
      then String DQUOTE (String DQUOTE (replace_dquote r))
      else String c (replace_dquote r)
  end.

(** [s.startswith(p)] *)
Definition startswith (s p : string) : bool := String.prefix p s.

(** [sep.join(parts)] *)
Definition join (sep : string) (parts : list string) : string :=
  String.concat sep parts.

(** [s.splitlines()]: the lines of [s] without their boundaries; CR LF is one
    boundary, and a boundary at the very end opens no further line.  [cur] is
    the line read so far. *)
Fixpoint splitlines_from (cur s : string) : list string :=
  match s with
  | EmptyString => if truthy cur then [cur] else []
  | String c r =>
      if is_linebreak c
      then cur ::
           match r with
           | String c' r' =>
               if Ascii.eqb c CR && Ascii.eqb c' LF
               then splitlines_from EmptyString r'
               else splitlines_from EmptyString r
           | EmptyString => []
           end
      else splitlines_from (cur ++ String c EmptyString) r
  end.

Definition splitlines (s : string) : list string := splitlines_from EmptyString s.

(** The lines of a text that was joined with LF: the pieces between the LF
    characters (one more piece than there are LF). *)
Fixpoint split_lf_from (cur s : string) : list string :=
  match s with
  | EmptyString => [cur]
  | String c r =>
      if Ascii.eqb c LF
      then cur :: split_lf_from EmptyString r
      else split_lf_from (cur ++ String c EmptyString) r
  end.

Definition lines_of (s : string) : list string := split_lf_from EmptyString s.

End Py.

Import Py.

(** ** Type mapping and helpers (lines 39-97) *)

Definition SIMPLE_TYPE_MAP : list (string * string) :=
  [ ("string", "text");
    ("adress", "text");
    ("text", "text");
    ("phone", "text");
    ("datetime", "timestamptz");
    ("date", "date");
    ("time", "time");
    ("boolean", "boolean");
    ("currency", "numeric(12,2)");
    ("decimal", "numeric");
    ("employee list", "jsonb");
    ("employee list (ordered array)", "jsonb") ].

(** [d[key]] / [key in d] on a dict given by its items. *)
Fixpoint dict_get (d : list (string * string)) (key : string) : option string :=
  match d with
  | [] => None
  | (k, v) :: rest => if String.eqb key k then Some v else dict_get rest key
  end.

Definition ENUM_LABELS : list string := ["enum"; "enum (multi select)"].

(** [x in s] for a set of strings. *)
Definition set_mem (x : string) (s : list string) : bool :=
  existsb (String.eqb x) s.

Definition KNOWN_LABELS : list string :=
  map fst SIMPLE_TYPE_MAP ++ ENUM_LABELS.

(** [normalize_sheet_type]: the label is a [str] at every call of the script
    (the [None] guard is for callers outside it). *)
Definition normalize_sheet_type (label : string) : string :=
  re_sub_ws (lower (strip label)).

(** The class [[a-z0-9_]]. *)
Definition ident_char (c : ascii) : bool :=
  in_range 97 122 c || in_range 48 57 c || Ascii.eqb c "_"%char.

(** The class [[a-z_]]. *)
Definition ident_start (c : ascii) : bool :=
  in_range 97 122 c || Ascii.eqb c "_"%char.

(** [[a-z0-9_]*$] from the current position: the star takes the whole run of
    class characters (giving some back never helps: the next character would
    be a class character), and [$], with no MULTILINE flag, holds at the end
    of the string and also just before a line feed that ends the string. *)
Fixpoint ident_rest (s : string) : bool :=
  match s with
  | EmptyString => true
  | String c r =>
      if ident_char c then ident_rest r
      else Ascii.eqb c LF && negb (truthy r)
  end.

(** [bool(re.match(r"^[a-z_][a-z0-9_]*$", name or ""))] *)
Definition is_valid_identifier (name : string) : bool :=
  match name with
  | EmptyString => false
  | String c r => ident_start c && ident_rest r
  end.

Definition quote_ident (ident : string) : string :=
  if is_valid_identifier ident then ident
  else String DQUOTE (replace_dquote ident ++ String DQUOTE EmptyString).

Definition map_type (sheet_type_label column_name : string)
  : string * list string :=
  let warnings : list string := [] in
  let key := normalize_sheet_type sheet_type_label in
  if String.eqb key "enum" then
    if negb (truthy column_name)
    then (EmptyString, app warnings ["Enum column without a name; skipped."])
    else (quote_ident column_name, warnings)
  else if String.eqb key "enum (multi select)" then
    if negb (truthy column_name)
    then (EmptyString,
          app warnings ["Enum (multi select) column without a name; skipped."])
    else (quote_ident column_name ++ "[]", warnings)
  else
    match dict_get SIMPLE_TYPE_MAP key with
    | Some pg => (pg, warnings)
    | None =>
        ("text",
         app warnings
           ["Unrecognized type '" ++ sheet_type_label ++ "' for column '"
            ++ column_name ++ "', defaulting to text."])
    end.


(** ** Exceptions *)

Inductive exn : Type :=
| ValueError (msg : string)
| UnicodeDecodeError
| CsvError (msg : string)
| TypeError
| IndexError.

Inductive result (A : Type) : Type :=
| Ok (a : A)
| Raise (e : exn).

Arguments Ok {A} a.
Arguments Raise {A} e.

Definition bind {A B : Type} (r : result A) (k : A -> result B) : result B :=
  match r with
  | Ok a => k a
  | Raise e => Raise e
  end.

Notation "x <- r ;; k" := (bind r (fun x => k))
  (at level 61, r at next level, right associativity).

(** ** The standard library's [csv.reader]

    The parser of the [csv] module, as the script uses it: the default
    dialect (quote character DQUOTE, doubled quotes, no escape character, no
    skipping of initial spaces, not strict) with the delimiter the script
    passes.  The states reached only through an escape character are left
    out.  The limit on the size of one field is the module's default, which
    the script does not change. *)

Module Csv.

Inductive ParserState : Type :=
| START_RECORD
| START_FIELD
| IN_FIELD
| IN_QUOTED_FIELD
| QUOTE_IN_QUOTED_FIELD
| EAT_CRNL.

Definition state_eqb (a b : ParserState) : bool :=
  match a, b with
  | START_RECORD, START_RECORD
  | START_FIELD, START_FIELD
  | IN_FIELD, IN_FIELD
  | IN_QUOTED_FIELD, IN_QUOTED_FIELD
  | QUOTE_IN_QUOTED_FIELD, QUOTE_IN_QUOTED_FIELD
  | EAT_CRNL, EAT_CRNL => true
  | _, _ => false
  end.

Record ReaderObj : Type := mkReader {
  state : ParserState;
  field : string;          (* the characters of the field being read *)
  fields : list string     (* the fields of the record being read *)
}.

(** [parse_reset] *)
Definition parse_reset : ReaderObj := mkReader START_RECORD EmptyString [].

Definition set_state (st : ParserState) (r : ReaderObj) : ReaderObj :=
  mkReader st (field r) (fields r).

(** [field_size_limit]: 128 * 1024 characters. *)
Definition FIELD_LIMIT : N := 131072.

(** [field_len]: the number of characters of the field being read. *)
Definition field_len (r : ReaderObj) : N :=
  N.of_nat (String.length (field r)).

(** [parse_add_char]: a character more in the field being read, refused once
    the field holds [FIELD_LIMIT] characters
    ([self->field_len >= field_limit]). *)
Definition at_limit (r : ReaderObj) : bool :=
  (FIELD_LIMIT <=? field_len r)%N.

Arguments at_limit : simpl never.

Definition parse_add_char (c : ascii) (r : ReaderObj) : result ReaderObj :=
  if at_limit r
  then Raise (CsvError "field larger than field limit (131072)")
  else Ok (mkReader (state r) (field r ++ String c EmptyString) (fields r)).

Definition parse_save_field (r : ReaderObj) : ReaderObj :=
  mkReader (state r) EmptyString (app (fields r) [field r]).

Definition is_crnl (c : ascii) : bool := Ascii.eqb c LF || Ascii.eqb c CR.

Definition start_field (delim : ascii) (r : ReaderObj) (c : option ascii)
  : result ReaderObj :=
  match c with
  | None => Ok (set_state START_RECORD (parse_save_field r))
  | Some ch =>
      if is_crnl ch then Ok (set_state EAT_CRNL (parse_save_field r))
      else if Ascii.eqb ch DQUOTE then Ok (set_state IN_QUOTED_FIELD r)
      else if Ascii.eqb ch delim then Ok (parse_save_field r)
      else r' <- parse_add_char ch r ;; Ok (set_state IN_FIELD r')
  end.

(** [parse_process_char]; [c = None] is the end-of-line mark the reader
    feeds after the characters of each line.  It raises the error of
    [parse_add_char] and the error of [EAT_CRNL]. *)
Definition parse_process_char (delim : ascii) (r : ReaderObj)
  (c : option ascii) : result ReaderObj :=
  match state r with
  | START_RECORD =>
      match c with
      | None => Ok r
      | Some ch =>
          if is_crnl ch then Ok (set_state EAT_CRNL r)
          else start_field delim (set_state START_FIELD r) c
      end
  | START_FIELD => start_field delim r c
  | IN_FIELD =>
      match c with
      | None => Ok (set_state START_RECORD (parse_save_field r))
      | Some ch =>
          if is_crnl ch then Ok (set_state EAT_CRNL (parse_save_field r))
          else if Ascii.eqb ch delim
               then Ok (set_state START_FIELD (parse_save_field r))
          else parse_add_char ch r
      end
  | IN_QUOTED_FIELD =>
      match c with
      | None => Ok r
      | Some ch =>
          if Ascii.eqb ch DQUOTE then Ok (set_state QUOTE_IN_QUOTED_FIELD r)
          else parse_add_char ch r
      end
  | QUOTE_IN_QUOTED_FIELD =>
      match c with
      | None => Ok (set_state START_RECORD (parse_save_field r))
      | Some ch =>
          if Ascii.eqb ch DQUOTE
          then r' <- parse_add_char ch r ;; Ok (set_state IN_QUOTED_FIELD r')
          else if Ascii.eqb ch delim
               then Ok (set_state START_FIELD (parse_save_field r))
          else if is_crnl ch
               then Ok (set_state EAT_CRNL (parse_save_field r))
          else r' <- parse_add_char ch r ;; Ok (set_state IN_FIELD r')
      end
  | EAT_CRNL =>
      match c with
      | None => Ok (set_state START_RECORD r)
      | Some ch =>
          if is_crnl ch then Ok r
          else Raise (CsvError "new-line character seen in unquoted field - do you need to open the file with newline=''?")
      end
  end.

(** The characters of one line, then the end-of-line mark. *)
Fixpoint process_line (delim : ascii) (r : ReaderObj) (line : string)
  : result ReaderObj :=
  match line with
  | EmptyString => parse_process_char delim r None
  | String c rest =>
      r' <- parse_process_char delim r (Some c) ;;
      process_line delim r' rest
  end.

(** [Reader_iternext], run until the input is exhausted: [rows] are the
    records returned so far, [r] the parser within the current record.  A
    record ends when a line leaves the parser in [START_RECORD]; at the end
    of the input an open quoted field (or a field with characters in it) is
    saved and the record returned. *)
Fixpoint reader_rows (delim : ascii) (r : ReaderObj) (lines : list string)
  (rows : list (list string)) : result (list (list string)) :=
  match lines with
  | [] =>
      if truthy (field r) || state_eqb (state r) IN_QUOTED_FIELD
      then Ok (app rows [fields (parse_save_field r)])
      else Ok rows
  | line :: rest =>
      r' <- process_line delim r line ;;
      if state_eqb (state r') START_RECORD
      then reader_rows delim parse_reset rest (app rows [fields r'])
      else reader_rows delim r' rest rows
  end.

(** [list(csv.reader(lines, delimiter=delimiter))]: the delimiter has to be
    a string of one character. *)
Definition reader (lines : list string) (delimiter : string)
  : result (list (list string)) :=
  match delimiter with
  | String d EmptyString => reader_rows d parse_reset lines []
  | _ => Raise TypeError
  end.

End Csv.

(** Iterating over [io.StringIO(text)]: the lines of [text], each with the
    line feed that ends it (no other character ends a line there). *)
Fixpoint stringio_lines_from (cur s : string) : list string :=
  match s with
  | EmptyString => if truthy cur then [cur] else []
  | String c r =>
      if Ascii.eqb c LF
      then (cur ++ String LF EmptyString) :: stringio_lines_from EmptyString r
      else stringio_lines_from (cur ++ String c EmptyString) r
  end.

Definition stringio_lines (text : string) : list string :=
  stringio_lines_from EmptyString text.


(** ** Delimiter detection (lines 99-126) *)

Definition POSSIBLE_DELIMS : list string :=
  [","; String TAB EmptyString; ";"; "|"].

(** [len(list(csv.reader([first_line], delimiter=d))[0])] *)
Definition field_count (first_line d : string) : result nat :=
  rows <- Csv.reader [first_line] d ;;
  match rows with
  | [] => Raise IndexError
  | row :: _ => Ok (length row)
  end.

(** The loop over the candidates, from the state [(best_delim, best_count)]. *)
Fixpoint best_delimiter (first_line : string) (delims : list string)
  (best_delim : option string) (best_count : nat) : result (option string) :=
  match delims with
  | [] => Ok best_delim
  | d :: rest =>
      count <- field_count first_line d ;;
      if Nat.ltb best_count count
      then best_delimiter first_line rest (Some d) count
      else best_delimiter first_line rest best_delim best_count
  end.

(** The fallback of [sniff_delimiter] (lines 114-126). *)
Definition sniff_fallback (sample : string) : result (option string) :=
  let lines := filter (fun ln => truthy (strip ln)) (splitlines sample) in
  match lines with
  | [] => Ok None
  | first_line :: _ => best_delimiter first_line POSSIBLE_DELIMS None 0
  end.

Section Sniffer.

(** [csv.Sniffer().sniff(sample, delimiters=",\t;|").delimiter] of the
    standard library: [Some d] when it returns a dialect with delimiter [d],
    [None] when it raises. *)
Variable csv_sniff : string -> option string.

Definition sniff_delimiter (sample : string) : result (option string) :=
  match csv_sniff sample with
  | Some d =>
      if set_mem d POSSIBLE_DELIMS then Ok (Some d) else sniff_fallback sample
  | None => sniff_fallback sample
  end.

End Sniffer.

(** ** CSV ingestion (lines 128-181) *)

(** [hits / n >= 0.55].  The quotient and the constant are binary doubles in
    the script; rounding is monotone and 0.55 rounds to the double that
    11/20 rounds to, so the test holds whenever [hits / n >= 11/20], and it
    could only hold below 11/20 for [n] of 2^52 cells or more.  The model
    compares the fractions exactly. *)
Definition ratio_at_least_055 (hits n : nat) : bool :=
  Nat.leb (11 * n) (20 * hits).

Definition looks_like_types (cells : list string) : bool :=
  let non_empty := filter (fun c => truthy (strip c)) cells in
  if negb (match non_empty with [] => false | _ => true end) then false
  else
    let normalized := map normalize_sheet_type non_empty in
    let hits :=
      length (filter (fun n => set_mem n KNOWN_LABELS || startswith n "enum")
                     normalized) in
    ratio_at_least_055 hits (length non_empty).

(** [row += [""] * (max_len - len(row))] *)
Definition pad_to (max_len : nat) (row : list string) : list string :=
  app row (repeat EmptyString (max_len - length row)).

Definition nat_to_str (n : nat) : string :=
  DecimalString.NilZero.string_of_uint (Nat.to_uint n).

(** The message of the error raised when no delimiter is found (the script
    writes the backslash of [\t] doubled in its literal). *)
Definition NO_DELIMITER : string :=
  "Could not detect a delimiter. Try providing --delimiter (e.g., --delimiter '\t').".

Section Reader.

Variable csv_sniff : string -> option string.

(** [raw.decode(encoding, errors="strict")]: [None] when it raises. *)
Variable decode : list Byte.byte -> string -> option string.

(** [delimiter or sniff_delimiter(text)] (line 146): the sniffer runs when
    the delimiter is [None] or the empty string. *)
Definition delimiter_or_sniff (delimiter : option string) (text : string)
  : result (option string) :=
  match delimiter with
  | Some d => if truthy d then Ok (Some d) else sniff_delimiter csv_sniff text
  | None => sniff_delimiter csv_sniff text
  end.

(** [read_three_row_csv] from the bytes read from [path]. *)
Definition read_three_row_csv (raw : list Byte.byte)
  (delimiter : option string) (encoding : string)
  : result (list string * list string * list string) :=
  text <- match decode raw encoding with
          | Some t => Ok t
          | None => Raise UnicodeDecodeError
          end ;;
  used_delim <- delimiter_or_sniff delimiter text ;;
  match used_delim with
  | None | Some EmptyString => Raise (ValueError NO_DELIMITER)
  | Some used =>
      rows <- Csv.reader (stringio_lines text) used ;;
      match rows with
      | desc :: type_labels :: colnames :: _ =>
          let max_len :=
            Nat.max (length desc)
                    (Nat.max (length type_labels) (length colnames)) in
          let desc := pad_to max_len desc in
          let type_labels := pad_to max_len type_labels in
          let colnames := pad_to max_len colnames in
          if negb (looks_like_types type_labels) && looks_like_types colnames
          then Ok (desc, colnames, type_labels)
          else Ok (desc, type_labels, colnames)
      | _ =>
          Raise (ValueError ("Expected a file with at least 3 rows, got "
                             ++ nat_to_str (length rows) ++ "."))
      end
  end.

End Reader.

(** ** DDL generation (lines 183-241) *)

(** [zip(descriptions, type_labels, colnames)] *)
Fixpoint zip3 (a b c : list string) : list (string * string * string) :=
  match a, b, c with
  | x :: a', y :: b', z :: c' => (x, y, z) :: zip3 a' b' c'
  | _, _, _ => []
  end.

(** The first loop (lines 207-221): the state is [(warnings, cols)]. *)
Fixpoint build_columns (rows : list (string * string * string))
  (warnings : list string) (cols : list (string * string))
  : list string * list (string * string) :=
  match rows with
  | [] => (warnings, cols)
  | (desc, typelab, col) :: rest =>
      let col := strip col in
      let typelab := strip typelab in
      if negb (truthy col) then build_columns rest warnings cols
      else
        let '(pg_type, w) := map_type typelab col in
        let warnings := app warnings w in
        if negb (truthy pg_type) then build_columns rest warnings cols
        else
          let col_ident := quote_ident col in
          let def_sql := col_ident ++ " " ++ pg_type in
          let comment_text :=
            if truthy (strip desc) then re_sub_ws (strip desc)
            else EmptyString in
          build_columns rest warnings (app cols [(def_sql, comment_text)])
  end.

(** One line of the second loop (lines 224-231), for the item at index [i] of
    [n] columns. *)
Definition column_line (n i : nat) (item : string * string) : string :=
  let '(def_sql, comment_text) := item in
  let is_last := Nat.eqb i (n - 1) in
  let line := "  " ++ def_sql in
  let line := if negb is_last then line ++ "," else line in
  if truthy comment_text then line ++ "  -- " ++ comment_text else line.

(** [enumerate(cols)] from index [i]. *)
Fixpoint emit_columns (n i : nat) (cols : list (string * string))
  : list string :=
  match cols with
  | [] => []
  | item :: rest => column_line n i item :: emit_columns n (S i) rest
  end.

Definition ID_LINE : string :=
  "  id uuid primary key default gen_random_uuid(),".

Definition warning_lines (warnings : list string) : list string :=
  match warnings with
  | [] => []
  | _ => EmptyString :: "-- Warnings during generation:"
         :: map (fun w => "--   " ++ w) warnings
  end.

(** [ddl_lines] just before the final join. *)
Definition ddl_lines (table_name : string)
  (descriptions type_labels colnames : list string) : list string :=
  let table_ident := quote_ident table_name in
  let '(warnings, cols) :=
    build_columns (zip3 descriptions type_labels colnames) [] [] in
  app [ "-- Generated by generate_supabase_schema.py";
        "-- Table: " ++ table_ident;
        "create table if not exists " ++ table_ident ++ " (";
        "  -- Surrogate primary key for internal use";
        ID_LINE ]
      (app (emit_columns (length cols) 0 cols)
           (app [");"] (warning_lines warnings))).

Definition generate_create_table_sql (table_name : string)
  (descriptions type_labels colnames : list string) : string :=
  join (String LF EmptyString)
       (ddl_lines table_name descriptions type_labels colnames).


(** ** Notions of the specification, for comparison with the code *)

Fixpoint all_chars (p : ascii -> bool) (s : string) : bool :=
  match s with
  | EmptyString => true
  | String c r => p c && all_chars p r
  end.

(** A "simple" name in the specification's words: a lowercase letter or
    underscore, then lowercase letters, digits or underscores, and nothing
    else. *)
Definition simple_name (name : string) : bool :=
  match name with
  | EmptyString => false
  | String c r => ident_start c && all_chars ident_char r
  end.

(** A normalized cell that counts as a type label: an exact key of the
    simple-type table, exactly "enum", or a text that starts with "enum". *)
Definition type_hit (n : string) : bool :=
  set_mem n (map fst SIMPLE_TYPE_MAP) || String.eqb n "enum"
  || startswith n "enum".

(** [looksLikeTypes] read literally, over the cells that are not the empty
    string. *)
Definition looksLikeTypes_spec (cells : list string) : bool :=
  let non_empty := filter truthy cells in
  match non_empty with
  | [] => false
  | _ =>
      ratio_at_least_055
        (length (filter type_hit (map normalize_sheet_type non_empty)))
        (length non_empty)
  end.

(** The cells the code keeps: those with a character that is not white
    space. *)
Definition non_blank (cells : list string) : list string :=
  filter (fun c => truthy (strip c)) cells.

Definition no_lf (s : string) : bool :=
  all_chars (fun c => negb (Ascii.eqb c LF)) s.

(** The inline comment the assembler appends to a column line. *)
Definition inline_comment (comment_text : string) : string :=
  if truthy comment_text then "  -- " ++ comment_text else EmptyString.

(** A column line up to its inline comment. *)
Definition column_base (n i : nat) (def_sql : string) : string :=
  "  " ++ def_sql ++ (if Nat.eqb i (n - 1) then EmptyString else ",").

Fixpoint column_bases (n i : nat) (defs : list string) : list string :=
  match defs with
  | [] => []
  | d :: rest => column_base n i d :: column_bases n (S i) rest
  end.

(** The warnings and the columns of the first loop. *)
Definition accumulated_warnings (descriptions type_labels colnames : list string)
  : list string :=
  fst (build_columns (zip3 descriptions type_labels colnames) [] []).

Definition column_specs (descriptions type_labels colnames : list string)
  : list (string * string) :=
  snd (build_columns (zip3 descriptions type_labels colnames) [] []).

Definition preamble (table_name : string) : list string :=
  [ "-- Generated by generate_supabase_schema.py";
    "-- Table: " ++ quote_ident table_name;
    "create table if not exists " ++ quote_ident table_name ++ " (";
    "  -- Surrogate primary key for internal use";
    ID_LINE ].

(** The state of the sniffer's loop after the candidates [seen]: no best
    candidate before the first one; afterwards the best candidate [d] with
    its field count [best_count], every earlier candidate strictly below it
    and every later one at most equal. *)
Definition sniff_state (first_line : string) (seen : list string)
  (best_delim : option string) (best_count : nat) : Prop :=
  match best_delim with
  | None => best_count = 0 /\ seen = []
  | Some d =>
      exists before after,
        seen = app before (d :: after) /\
        field_count first_line d = Ok best_count /\
        1 <= best_count /\
        (forall d', In d' before ->
           exists n', field_count first_line d' = Ok n' /\ n' < best_count) /\
        (forall d', In d' after ->
           exists n', field_count first_line d' = Ok n' /\ n' <= best_count)
  end.

Definition no_linebreak (s : string) : bool :=
  all_chars (fun c => negb (is_linebreak c)) s.

Definition no_crnl (s : string) : bool :=
  all_chars (fun c => negb (Csv.is_crnl c)) s.

(** A text of at most [FIELD_LIMIT] characters. *)
Definition within_limit (s : string) : bool :=
  (N.of_nat (String.length s) <=? Csv.FIELD_LIMIT)%N.

(** Within a record: neither before its first character nor after its end. *)
Definition within (r : Csv.ReaderObj) : Prop :=
  Csv.state r <> Csv.START_RECORD /\ Csv.state r <> Csv.EAT_CRNL.

(** At the end of a line: the record is complete with at least one field, or
    a quoted field is still open. *)
Definition line_done (r : Csv.ReaderObj) : Prop :=
  (Csv.state r = Csv.START_RECORD /\ Csv.fields r <> []) \/
  Csv.state r = Csv.IN_QUOTED_FIELD.

(** [raw.decode("latin-1")]: every byte is the code point of its number, and
    nothing is raised.  The decoder of the examples. *)
Definition decode_latin1 (raw : list Byte.byte) (encoding : string)
  : option string :=
  Some (string_of_list_byte raw).

(** The bytes of a file holding the given lines, each ended by a line feed
    (for the examples). *)
Definition file_of_lines (lines : list string) : list Byte.byte :=
  list_byte_of_string
    (String.concat EmptyString
       (map (fun ln => ln ++ String LF EmptyString) lines)).

(** The column lines: each base followed by the inline comment of its
    column. *)
Definition with_comments (bases comments : list string) : list string :=
  map (fun p => fst p ++ inline_comment (snd p)) (combine bases comments).

(** The definitions (quoted name, a space, the type) and the comments of the
    columns the first loop keeps. *)
Definition column_definitions (descriptions type_labels colnames : list string)
  : list string :=
  map fst (column_specs descriptions type_labels colnames).

Definition column_comments (descriptions type_labels colnames : list string)
  : list string :=
  map snd (column_specs descriptions type_labels colnames).

(** [s] differs from [p] at a position that both have. *)
Fixpoint mismatch (p s : string) : bool :=
  match p, s with
  | String a p', String b s' => negb (Ascii.eqb a b) || mismatch p' s'
  | _, _ => false
  end.

(** [c in s] for a character. *)
Fixpoint occurs (c : ascii) (s : string) : bool :=
  match s with
  | EmptyString => false
  | String x r => Ascii.eqb x c || occurs c r
  end.

(** The rows of the first loop that have a column name (lines 208-211). *)
Definition named_row (row : string * string * string) : bool :=
  truthy (strip (snd row)).

(** The column the first loop builds from a row with a name (lines 213-221). *)
Definition column_of (row : string * string * string) : string * string :=
  let '(desc, typelab, col) := row in
  (quote_ident (strip col) ++ " "
     ++ fst (map_type (strip typelab) (strip col)),
   if truthy (strip desc) then re_sub_ws (strip desc) else EmptyString).

(** The warnings the first loop takes from a row with a name (line 214). *)
Definition warnings_of (row : string * string * string) : list string :=
  let '(_, typelab, col) := row in
  snd (map_type (strip typelab) (strip col)).

(** A column line that is not the last one, and the last one. *)
Definition comma_line (item : string * string) : string :=
  ("  " ++ fst item ++ ",") ++ inline_comment (snd item).

Definition last_line (item : string * string) : string :=
  ("  " ++ fst item) ++ inline_comment (snd item).

(** White space in a comment is the space character only. *)
Definition only_spaces (s : string) : bool :=
  all_chars (fun c => negb (isspace c) || Ascii.eqb c " ") s.

(** A delimiter that is neither the quote character nor CR nor LF. *)
Definition plain_delimiter (d : ascii) : bool :=
  negb (Ascii.eqb d DQUOTE) && negb (Csv.is_crnl d).

(** A cell written without quotes: none of its characters is the delimiter,
    the quote character, CR or LF. *)
Definition plain_field (d : ascii) (f : string) : bool :=
  all_chars (fun c => negb (Ascii.eqb c d) && negb (Ascii.eqb c DQUOTE)
                      && negb (Csv.is_crnl c)) f.

(** A row of such cells that is written as a non-empty line: at least one
    cell, and not a single empty one. *)
Definition plain_row (d : ascii) (row : list string) : bool :=
  match row with
  | [] => false
  | [EmptyString] => false
  | _ => forallb (plain_field d) row
  end.

(** The line of a row: its cells joined by the delimiter, and a line feed. *)
Definition csv_line (d : ascii) (row : list string) : string :=
  join (String d EmptyString) row ++ String LF EmptyString.

(** The text of a file of such lines. *)
Definition csv_text (d : ascii) (rows : list (list string)) : string :=
  String.concat EmptyString (map (csv_line d) rows).

(** The parser on the characters of a text, with no end-of-line mark. *)
Fixpoint process_chars (delim : ascii) (r : Csv.ReaderObj) (s : string)
  : result Csv.ReaderObj :=
  match s with
  | EmptyString => Ok r
  | String c rest =>
      r' <- Csv.parse_process_char delim r (Some c) ;;
      process_chars delim r' rest
  end.

(** The rows with a name whose type label is not a known one, and the
    warning of such a row. *)
Definition unknown_named (row : string * string * string) : bool :=
  let '(_, typelab, col) := row in
  truthy (strip col)
  && negb (set_mem (normalize_sheet_type (strip typelab)) KNOWN_LABELS).

Definition unrecognized (row : string * string * string) : string :=
  let '(_, typelab, col) := row in
  "Unrecognized type '" ++ strip typelab ++ "' for column '" ++ strip col
  ++ "', defaulting to text.".

(** The text of [n] times the character [c]. *)
Fixpoint replicate (n : nat) (c : ascii) : string :=
  match n with
  | O => EmptyString
  | S k => String c (replicate k c)
  end.

(** A line of 131073 letters, one more than the field limit (for the
    examples). *)
Definition long_line : string := replicate (N.to_nat 131073) "a".

(* ================================================================== *)
(** * Part II: properties                                              *)
(* ================================================================== *)

(** ** Strings *)

Lemma append_empty_r (s : string) : s ++ EmptyString = s.
Proof. induction s as [|c s IH]; simpl; [reflexivity | now rewrite IH]. Qed.

Lemma append_assoc (a b c : string) : (a ++ b) ++ c = a ++ (b ++ c).
Proof. induction a as [|x a IH]; simpl; [reflexivity | now rewrite IH]. Qed.

Lemma truthy_false (s : string) : truthy s = false <-> s = EmptyString.
Proof. destruct s; simpl; split; congruence. Qed.

Lemma truthy_true (s : string) : truthy s = true <-> s <> EmptyString.
Proof. destruct s; simpl; split; congruence. Qed.

(** ** The type mapper *)

Lemma dict_get_none (d : list (string * string)) (key : string) :
  dict_get d key = None <-> ~ In key (map fst d).
Proof.
  induction d as [|[k v] d IH]; simpl.
  - tauto.
  - destruct (String.eqb_spec key k) as [->|Hne].
    + split; [discriminate | intros H; exfalso; apply H; now left].
    + rewrite IH. split; [intros H [E|E]; [congruence | tauto] | tauto].
Qed.

Lemma dict_get_some (d : list (string * string)) (key v : string) :
  dict_get d key = Some v -> In v (map snd d).
Proof.
  induction d as [|[k v'] d IH]; simpl; [discriminate|].
  destruct (String.eqb key k); [intros [= ->]; now left | auto].
Qed.



(** C4. For every label (the empty one too) whose normalization is neither
    "enum", nor "enum (multi select)", nor a key of the simple-type table, and
    every column name, [map_type] returns (it is a total function: nothing is
    raised) the type "text" with exactly one warning, whose text carries the
    label as it was given, untrimmed. *)
Theorem map_type_fallback (label c : string) :
  normalize_sheet_type label <> "enum" ->
  normalize_sheet_type label <> "enum (multi select)" ->
  ~ In (normalize_sheet_type label) (map fst SIMPLE_TYPE_MAP) ->
  map_type label c
  = ("text",
     ["Unrecognized type '" ++ label ++ "' for column '" ++ c
      ++ "', defaulting to text."]).
Proof.
  intros H1 H2 H3. unfold map_type.
  apply String.eqb_neq in H1. apply String.eqb_neq in H2.
  apply dict_get_none in H3.
  rewrite H1, H2, H3. reflexivity.
Qed.

Lemma map_type_fallback_witness :
  map_type "Foo" "bar"
  = ("text", ["Unrecognized type 'Foo' for column 'bar', defaulting to text."])
  /\ map_type EmptyString "bar"
  = ("text", ["Unrecognized type '' for column 'bar', defaulting to text."])
  /\ map_type "  Foo " "bar"
  = ("text",
     ["Unrecognized type '  Foo ' for column 'bar', defaulting to text."]).
Proof.
  split; [|split].
  - apply (map_type_fallback "Foo" "bar");
      vm_compute; intuition discriminate.
  - apply (map_type_fallback EmptyString "bar");
      vm_compute; intuition discriminate.
  - apply (map_type_fallback "  Foo " "bar");
      vm_compute; intuition discriminate.
Defined.

(** ** The identifier quoter *)

Lemma all_chars_ident_rest (s : string) :
  all_chars ident_char s = true -> ident_rest s = true.
Proof.
  induction s as [|c s IH]; simpl; [reflexivity|].
  intros H. apply andb_true_iff in H as [Hc Hs]. rewrite Hc. auto.
Qed.

(** What the pattern accepts: the simple names, and the simple names followed
    by one line feed. *)
Lemma ident_rest_inv (s : string) :
  ident_rest s = true ->
  all_chars ident_char s = true \/
  exists p, all_chars ident_char p = true /\ s = p ++ String LF EmptyString.
Proof.
  induction s as [|c s IH]; simpl; [now left|].
  destruct (ident_char c) eqn:Hc.
  - intros H. destruct (IH H) as [Hs | (p & Hp & ->)].
    + left. now rewrite Hs.
    + right. exists (String c p). simpl. now rewrite Hc, Hp.
  - intros H. apply andb_true_iff in H as [Hlf Hr].
    apply Ascii.eqb_eq in Hlf. apply negb_true_iff, truthy_false in Hr.
    subst. right. exists EmptyString. now split.
Qed.

Lemma is_valid_identifier_inv (name : string) :
  is_valid_identifier name = true ->
  simple_name name = true \/
  exists p, simple_name p = true /\ name = p ++ String LF EmptyString.
Proof.
  destruct name as [|c r]; simpl; [discriminate|].
  intros H. apply andb_true_iff in H as [Hc Hr].
  destruct (ident_rest_inv r Hr) as [Hs | (p & Hp & ->)].
  - left. now rewrite Hc, Hs.
  - right. exists (String c p). simpl. now rewrite Hc, Hp.
Qed.

(** Simple names are returned unchanged. *)
Lemma quote_ident_simple (name : string) :
  simple_name name = true -> quote_ident name = name.
Proof.
  intros H. unfold quote_ident.
  destruct name as [|c r]; simpl in *; [discriminate|].
  apply andb_true_iff in H as [Hc Hr].
  now rewrite Hc, (all_chars_ident_rest r Hr).
Qed.

(** A name the pattern rejects is wrapped in double quotes, its own double
    quotes doubled. *)
Lemma quote_ident_quoted (name : string) :
  is_valid_identifier name = false ->
  quote_ident name
  = String DQUOTE (replace_dquote name ++ String DQUOTE EmptyString).
Proof. intros H. unfold quote_ident. now rewrite H. Qed.

(** The two examples of the specification: [weird name], and [Column],
    a double quote, [X]. *)
Example quote_ident_examples :
  quote_ident "weird name"
  = String DQUOTE ("weird name" ++ String DQUOTE EmptyString)
  /\ quote_ident ("Column" ++ String DQUOTE "X")
     = String DQUOTE
         ("Column" ++ String DQUOTE (String DQUOTE ("X" ++ String DQUOTE EmptyString))).
Proof. split; reflexivity. Qed.

(** C7. The name "leads" followed by a line feed is not simple (a line feed
    is no lowercase letter, digit or underscore), and [quote_ident] returns it
    unchanged, unquoted: the [$] of the pattern also holds just before a line
    feed that ends the name. *)
Theorem quote_ident_trailing_line_feed :
  simple_name ("leads" ++ String LF EmptyString) = false /\
  is_valid_identifier ("leads" ++ String LF EmptyString) = true /\
  quote_ident ("leads" ++ String LF EmptyString)
  = "leads" ++ String LF EmptyString.
Proof. repeat split. Qed.

(** ** The end-to-end scenario *)

(** C2. For table [leads], descriptions [Name; Status], type labels
    [String; Enum] and column names [full_name; status], the assembler
    returns exactly the text of the specification's end-to-end scenario:
    the two header comments, the create-table line, the surrogate-key
    comment and line, the two column lines and the closing line, joined by
    line feeds (eight lines). *)
Theorem generate_leads_scenario :
  generate_create_table_sql "leads" ["Name"; "Status"] ["String"; "Enum"]
                            ["full_name"; "status"]
  = join (String LF EmptyString)
      [ "-- Generated by generate_supabase_schema.py";
        "-- Table: leads";
        "create table if not exists leads (";
        "  -- Surrogate primary key for internal use";
        "  id uuid primary key default gen_random_uuid(),";
        "  full_name text,  -- Name";
        "  status status  -- Status";
        ");" ]
  /\ length (lines_of
       (generate_create_table_sql "leads" ["Name"; "Status"]
          ["String"; "Enum"] ["full_name"; "status"])) = 8.
Proof. split; vm_compute; reflexivity. Qed.

(** ** [str.splitlines] *)

Lemma all_chars_app (p : ascii -> bool) (a b : string) :
  all_chars p (a ++ b) = all_chars p a && all_chars p b.
Proof.
  induction a as [|c a IH]; simpl; [reflexivity|].
  now rewrite IH, andb_assoc.
Qed.

Lemma all_chars_impl (p q : ascii -> bool) (s : string) :
  (forall c, p c = true -> q c = true) ->
  all_chars p s = true -> all_chars q s = true.
Proof.
  intros Hpq. induction s as [|c s IH]; simpl; [reflexivity|].
  intros H. apply andb_true_iff in H as [Hc Hs].
  now rewrite (Hpq c Hc), (IH Hs).
Qed.

(** No line of [splitlines] holds a line boundary. *)
Lemma splitlines_from_no_linebreak (n : nat) :
  forall s cur,
    String.length s <= n ->
    no_linebreak cur = true ->
    Forall (fun ln => no_linebreak ln = true) (splitlines_from cur s).
Proof.
  induction n as [|n IH]; intros s cur Hlen Hcur.
  - destruct s; simpl in Hlen; [|lia]. simpl.
    destruct (truthy cur); auto.
  - destruct s as [|c r]; simpl.
    + destruct (truthy cur); auto.
    + simpl in Hlen.
      destruct (is_linebreak c) eqn:Hc.
      * constructor; [assumption|].
        destruct r as [|c' r']; [constructor|].
        simpl in Hlen.
        destruct (Ascii.eqb c CR && Ascii.eqb c' LF);
          apply IH; simpl; try lia; reflexivity.
      * apply IH; [lia|].
        unfold no_linebreak in *. rewrite all_chars_app, Hcur. simpl.
        now rewrite Hc.
Qed.

Lemma splitlines_no_linebreak (s : string) :
  Forall (fun ln => no_linebreak ln = true) (splitlines s).
Proof.
  apply (splitlines_from_no_linebreak (String.length s)); auto.
Qed.

Lemma is_crnl_linebreak (c : ascii) :
  Csv.is_crnl c = true -> is_linebreak c = true.
Proof.
  unfold Csv.is_crnl. intros H. apply orb_true_iff in H as [H|H];
    apply Ascii.eqb_eq in H; subst; reflexivity.
Qed.

Lemma no_linebreak_no_crnl (s : string) :
  no_linebreak s = true -> no_crnl s = true.
Proof.
  apply all_chars_impl. intros c H.
  destruct (Csv.is_crnl c) eqn:E; [|reflexivity].
  apply is_crnl_linebreak in E. now rewrite E in H.
Qed.

Lemma strip_truthy_nonempty (s : string) :
  truthy (strip s) = true -> s <> EmptyString.
Proof. intros H ->. discriminate. Qed.

(** The first non-blank line of a sample is not empty and holds neither CR
    nor LF. *)
Lemma first_non_blank_line (sample first_line : string) (rest : list string) :
  non_blank (splitlines sample) = first_line :: rest ->
  first_line <> EmptyString /\ no_crnl first_line = true.
Proof.
  intros H.
  assert (Hin : In first_line (non_blank (splitlines sample)))
    by (rewrite H; now left).
  apply filter_In in Hin as [Hin Hnb].
  split; [now apply strip_truthy_nonempty|].
  apply no_linebreak_no_crnl.
  pose proof (splitlines_no_linebreak sample) as HF.
  rewrite Forall_forall in HF. now apply HF.
Qed.

(** ** The csv parser on one line *)

Lemma length_append_char (s : string) (c : ascii) :
  String.length (s ++ String c EmptyString) = S (String.length s).
Proof. induction s as [|x s IH]; simpl; [reflexivity | now rewrite IH]. Qed.

Section OneLine.

Variable delim : ascii.

(** The parser raises the errors of the csv module only. *)
Lemma parse_process_char_raise (r : Csv.ReaderObj) (c : option ascii)
  (e : exn) :
  Csv.parse_process_char delim r c = Raise e -> exists m, e = CsvError m.
Proof.
  destruct r as [st f fs].
  unfold Csv.parse_process_char, Csv.start_field, Csv.parse_add_char.
  destruct st; destruct c as [ch|]; cbn [Csv.state];
    repeat match goal with
           | |- context [if ?b then _ else _] => destruct b
           end;
    cbn [bind]; intros H; try discriminate H;
    injection H as <-; eexists; reflexivity.
Qed.

(** A character that is neither CR nor LF keeps the parser within the
    record, and lengthens the field being read by one character at most; if
    it is not the delimiter either, it saves no field. *)
Lemma parse_char_within (r r' : Csv.ReaderObj) (ch : ascii) :
  Csv.is_crnl ch = false ->
  Csv.state r <> Csv.EAT_CRNL ->
  Csv.parse_process_char delim r (Some ch) = Ok r' ->
  within r' /\
  String.length (Csv.field r') <= S (String.length (Csv.field r)) /\
  (Ascii.eqb ch delim = false -> Csv.fields r' = Csv.fields r).
Proof.
  intros Hch Hst. destruct r as [st f fs]. unfold within.
  unfold Csv.parse_process_char, Csv.start_field, Csv.parse_add_char.
  destruct st; cbn [Csv.state] in *; try congruence; rewrite ?Hch;
    cbn [Csv.state Csv.field Csv.fields Csv.set_state Csv.parse_save_field];
    repeat match goal with
           | |- context [if ?b then _ else _] => destruct b eqn:?
           end;
    cbn [bind]; intros H; try discriminate H; injection H as <-;
    cbn [Csv.state Csv.field Csv.fields Csv.set_state Csv.parse_save_field];
    rewrite ?length_append_char; simpl String.length;
    (split; [split; discriminate | split; [lia | congruence]]).
Qed.

(** Below the field limit such a character is accepted. *)
Lemma parse_char_accepted (r : Csv.ReaderObj) (ch : ascii) :
  Csv.is_crnl ch = false ->
  Csv.state r <> Csv.EAT_CRNL ->
  (N.of_nat (String.length (Csv.field r)) < Csv.FIELD_LIMIT)%N ->
  exists r', Csv.parse_process_char delim r (Some ch) = Ok r'.
Proof.
  intros Hch Hst Hlim. destruct r as [st f fs].
  assert (Hat : forall st', Csv.at_limit (Csv.mkReader st' f fs) = false)
    by (intros st'; unfold Csv.at_limit, Csv.field_len; now apply N.leb_gt).
  unfold Csv.parse_process_char, Csv.start_field, Csv.parse_add_char.
  destruct st; cbn [Csv.state] in *; try congruence; rewrite ?Hch;
    unfold Csv.set_state; cbn [Csv.field Csv.fields]; rewrite ?Hat;
    repeat match goal with
           | |- context [if ?b then _ else _] => destruct b
           end;
    cbn [bind]; eexists; reflexivity.
Qed.

Lemma app_not_nil {A : Type} (l : list A) (x : A) : app l [x] <> [].
Proof. destruct l; discriminate. Qed.

(** The end of a line never raises; it completes the record with the field
    being read, unless a quoted field is still open. *)
Lemma parse_eol_within (r : Csv.ReaderObj) :
  within r ->
  exists r', Csv.parse_process_char delim r None = Ok r' /\ line_done r' /\
             ((Csv.state r' = Csv.START_RECORD /\
               length (Csv.fields r') = S (length (Csv.fields r))) \/
              (Csv.state r' = Csv.IN_QUOTED_FIELD /\
               Csv.fields r' = Csv.fields r)).
Proof.
  intros [H1 H2]. destruct r as [st f fs]. unfold line_done.
  destruct st; simpl in *; try congruence;
    unfold Csv.parse_process_char, Csv.start_field; simpl;
    eexists; (split; [reflexivity | simpl]);
    first [ split; right; [reflexivity | split; reflexivity]
          | split; left;
            (split; [reflexivity
                    | first [ apply app_not_nil
                            | rewrite length_app; simpl; lia ]]) ].
Qed.

(** A line without CR and LF, read from within a record: if the parser
    returns, the line is done. *)
Lemma process_line_within (line : string) :
  forall r r',
    no_crnl line = true -> within r ->
    Csv.process_line delim r line = Ok r' -> line_done r'.
Proof.
  induction line as [|c line IH]; intros r r' Hl Hr; cbn [Csv.process_line].
  - destruct (parse_eol_within r Hr) as (r1 & -> & Hd & _).
    now intros [= <-].
  - simpl in Hl. apply andb_true_iff in Hl as [Hc Hl].
    apply negb_true_iff in Hc.
    destruct (Csv.parse_process_char delim r (Some c)) as [r1|e] eqn:E;
      cbn [bind]; [|discriminate].
    destruct (parse_char_within r r1 c Hc (proj2 Hr) E) as (Hr1 & _).
    now apply IH.
Qed.

(** It does return when the field being read and the line together stay
    within the field limit. *)
Lemma process_line_accepted (line : string) :
  forall r,
    no_crnl line = true -> within r ->
    (N.of_nat (String.length (Csv.field r) + String.length line)
     <= Csv.FIELD_LIMIT)%N ->
    exists r', Csv.process_line delim r line = Ok r'.
Proof.
  induction line as [|c line IH]; intros r Hl Hr Hlim; cbn [Csv.process_line].
  - destruct (parse_eol_within r Hr) as (r1 & -> & _). now exists r1.
  - simpl in Hl. apply andb_true_iff in Hl as [Hc Hl].
    apply negb_true_iff in Hc. simpl String.length in Hlim.
    destruct (parse_char_accepted r c Hc (proj2 Hr)) as (r1 & E); [lia|].
    rewrite E. cbn [bind].
    destruct (parse_char_within r r1 c Hc (proj2 Hr) E) as (Hr1 & Hlen & _).
    apply IH; [exact Hl | exact Hr1 | lia].
Qed.

Lemma process_line_fresh (line : string) (r' : Csv.ReaderObj) :
  line <> EmptyString -> no_crnl line = true ->
  Csv.process_line delim Csv.parse_reset line = Ok r' -> line_done r'.
Proof.
  destruct line as [|c line]; [congruence|]. intros _ Hl.
  cbn [Csv.process_line].
  simpl in Hl. apply andb_true_iff in Hl as [Hc Hl].
  apply negb_true_iff in Hc.
  destruct (Csv.parse_process_char delim Csv.parse_reset (Some c))
    as [r1|e] eqn:E; cbn [bind]; [|discriminate].
  destruct (parse_char_within Csv.parse_reset r1 c Hc ltac:(discriminate) E)
    as (Hr1 & _).
  now apply process_line_within.
Qed.

Lemma process_line_fresh_accepted (line : string) :
  line <> EmptyString -> no_crnl line = true ->
  within_limit line = true ->
  exists r', Csv.process_line delim Csv.parse_reset line = Ok r'.
Proof.
  destruct line as [|c line]; [congruence|]. intros _ Hl Hlim.
  unfold within_limit in Hlim. apply N.leb_le in Hlim.
  simpl String.length in Hlim.
  cbn [Csv.process_line].
  simpl in Hl. apply andb_true_iff in Hl as [Hc Hl].
  apply negb_true_iff in Hc.
  destruct (parse_char_accepted Csv.parse_reset c Hc ltac:(discriminate))
    as (r1 & E); [simpl; lia|].
  rewrite E. cbn [bind].
  destruct (parse_char_within Csv.parse_reset r1 c Hc ltac:(discriminate) E)
    as (Hr1 & Hlen & _).
  apply process_line_accepted; [exact Hl | exact Hr1 |]. simpl in Hlen. lia.
Qed.

Lemma reader_rows_raise (lines : list string) :
  forall r rows e,
    Csv.reader_rows delim r lines rows = Raise e -> exists m, e = CsvError m.
Proof.
  induction lines as [|line rest IH]; intros r rows e; simpl.
  - destruct (truthy (Csv.field r)
              || Csv.state_eqb (Csv.state r) Csv.IN_QUOTED_FIELD);
      discriminate.
  - destruct (Csv.process_line delim r line) as [r'|e'] eqn:E; cbn [bind].
    + destruct (Csv.state_eqb (Csv.state r') Csv.START_RECORD); apply IH.
    + intros [= <-]. clear IH. revert r E.
      induction line as [|c line IHl]; intros r; cbn [Csv.process_line].
      * apply parse_process_char_raise.
      * destruct (Csv.parse_process_char delim r (Some c)) as [r1|e1] eqn:E1;
          cbn [bind].
        -- apply IHl.
        -- intros [= <-]. eapply parse_process_char_raise; eauto.
Qed.

(** A non-empty line without CR and LF is read as one record of at least one
    field, when the reader returns. *)
Lemma reader_rows_one_line (line : string) (rows : list (list string)) :
  line <> EmptyString -> no_crnl line = true ->
  Csv.reader_rows delim Csv.parse_reset [line] [] = Ok rows ->
  exists row, rows = [row] /\ row <> [].
Proof.
  intros Hne Hl. cbn [Csv.reader_rows].
  destruct (Csv.process_line delim Csv.parse_reset line) as [r'|e] eqn:Hp;
    cbn [bind]; [|discriminate].
  destruct (process_line_fresh line r' Hne Hl Hp) as [[Hs Hf] | Hs];
    rewrite Hs; simpl.
  - intros [= <-]. exists (Csv.fields r'). now split.
  - rewrite orb_true_r. intros [= <-]. eexists.
    split; [reflexivity | apply app_not_nil].
Qed.

(** The reader returns for a line within the field limit. *)
Lemma reader_rows_one_line_accepted (line : string) :
  line <> EmptyString -> no_crnl line = true ->
  within_limit line = true ->
  exists rows, Csv.reader_rows delim Csv.parse_reset [line] [] = Ok rows.
Proof.
  intros Hne Hl Hlim. cbn [Csv.reader_rows].
  destruct (process_line_fresh_accepted line Hne Hl Hlim) as (r' & ->).
  cbn [bind]. destruct (Csv.state_eqb (Csv.state r') Csv.START_RECORD).
  - simpl. eexists. reflexivity.
  - simpl. destruct (truthy (Csv.field r')
                     || Csv.state_eqb (Csv.state r') Csv.IN_QUOTED_FIELD);
      eexists; reflexivity.
Qed.

End OneLine.

Lemma possible_delims_inv (d : string) :
  In d POSSIBLE_DELIMS -> exists ch, d = String ch EmptyString.
Proof.
  unfold POSSIBLE_DELIMS. simpl.
  intros [<-|[<-|[<-|[<-|[]]]]]; eexists; reflexivity.
Qed.

(** The count of a candidate on a non-empty line without CR and LF: at least
    one field, or the error of the csv module. *)
Lemma field_count_outcome (first_line d : string) :
  In d POSSIBLE_DELIMS ->
  first_line <> EmptyString -> no_crnl first_line = true ->
  (exists n, field_count first_line d = Ok n /\ 1 <= n) \/
  (exists m, field_count first_line d = Raise (CsvError m)).
Proof.
  intros Hd Hne Hl. destruct (possible_delims_inv d Hd) as (ch & ->).
  unfold field_count, Csv.reader.
  destruct (Csv.reader_rows ch Csv.parse_reset [first_line] [])
    as [rows|e] eqn:E; cbn [bind].
  - left.
    destruct (reader_rows_one_line ch first_line rows Hne Hl E)
      as (row & -> & Hrow).
    exists (length row). split; [reflexivity|].
    destruct row; [congruence | simpl; lia].
  - right. destruct (reader_rows_raise ch _ _ _ _ E) as (m & ->).
    now exists m.
Qed.

Lemma field_count_positive (first_line d : string) (n : nat) :
  In d POSSIBLE_DELIMS ->
  first_line <> EmptyString -> no_crnl first_line = true ->
  field_count first_line d = Ok n -> 1 <= n.
Proof.
  intros Hd Hne Hl H.
  destruct (field_count_outcome first_line d Hd Hne Hl)
    as [(n' & E & Hn) | (m & E)]; rewrite E in H; [|discriminate].
  now injection H as <-.
Qed.

(** Within the field limit every candidate has a count. *)
Lemma field_count_accepted (first_line d : string) :
  In d POSSIBLE_DELIMS ->
  first_line <> EmptyString -> no_crnl first_line = true ->
  within_limit first_line = true ->
  exists n, field_count first_line d = Ok n.
Proof.
  intros Hd Hne Hl Hlim.
  destruct (field_count_outcome first_line d Hd Hne Hl)
    as [(n & E & _) | (m & E)]; [now exists n|].
  exfalso. destruct (possible_delims_inv d Hd) as (ch & ->).
  destruct (reader_rows_one_line_accepted ch first_line Hne Hl Hlim)
    as (rows & Hr).
  unfold field_count, Csv.reader in E. rewrite Hr in E. cbn [bind] in E.
  destruct rows; discriminate E.
Qed.

(** ** The delimiter sniffer *)

Section SniffLoop.

Variable first_line : string.

(** One turn of the loop keeps [sniff_state]. *)
Lemma sniff_state_step (seen : list string) (bd : option string)
  (bc : nat) (d : string) (n : nat) :
  sniff_state first_line seen bd bc ->
  field_count first_line d = Ok n -> 1 <= n ->
  if Nat.ltb bc n
  then sniff_state first_line (app seen [d]) (Some d) n
  else sniff_state first_line (app seen [d]) bd bc.
Proof.
  intros Hst Hd Hn. destruct (Nat.ltb_spec bc n) as [Hlt|Hge].
  - (* a strictly better candidate *)
    simpl. exists seen, []. repeat split; auto.
    + intros d' Hin. destruct bd as [d0|]; simpl in Hst.
      * destruct Hst as (before & after & -> & H0 & Hpos & Hb & Ha).
        apply in_app_or in Hin as [Hin|[<-|Hin]].
        -- destruct (Hb d' Hin) as (n' & E & L). exists n'. split; [auto|lia].
        -- exists bc. split; [auto|lia].
        -- destruct (Ha d' Hin) as (n' & E & L). exists n'. split; [auto|lia].
      * destruct Hst as [_ ->]. destruct Hin.
    + intros d' [].
  - (* the best so far stays *)
    destruct bd as [d0|]; simpl in *.
    + destruct Hst as (before & after & -> & H0 & Hpos & Hb & Ha).
      exists before, (app after [d]). rewrite <- app_assoc. simpl.
      repeat split; auto.
      intros d' Hin. apply in_app_or in Hin as [Hin|[<-|[]]].
      * now apply Ha.
      * exists n. split; [auto|lia].
    + destruct Hst as [-> _]. lia.
Qed.

Lemma best_delimiter_state (delims : list string) :
  forall seen bd bc,
    (forall d, In d delims ->
       exists n, field_count first_line d = Ok n /\ 1 <= n) ->
    sniff_state first_line seen bd bc ->
    exists r bc',
      best_delimiter first_line delims bd bc = Ok r /\
      sniff_state first_line (app seen delims) r bc'.
Proof.
  induction delims as [|d rest IH]; intros seen bd bc Hall Hst; simpl.
  - exists bd, bc. rewrite app_nil_r. now split.
  - destruct (Hall d (or_introl eq_refl)) as (n & Hd & Hn).
    rewrite Hd. simpl.
    pose proof (sniff_state_step seen bd bc d n Hst Hd Hn) as Hstep.
    replace (app seen (d :: rest)) with (app (app seen [d]) rest)
      by (rewrite <- app_assoc; reflexivity).
    destruct (Nat.ltb bc n); apply IH; auto;
      intros d' Hin; apply Hall; now right.
Qed.

End SniffLoop.

(** When the count of some candidate raises, the loop raises. *)
Lemma best_delimiter_raises (first_line : string) (delims : list string) :
  forall bd bc,
    (forall d, In d delims ->
       (exists n, field_count first_line d = Ok n) \/
       (exists m, field_count first_line d = Raise (CsvError m))) ->
    (exists d, In d delims /\ forall n, field_count first_line d <> Ok n) ->
    exists m, best_delimiter first_line delims bd bc = Raise (CsvError m).
Proof.
  induction delims as [|d rest IH]; intros bd bc Hall (d' & Hin & Hd').
  - destruct Hin.
  - cbn [best_delimiter].
    destruct (Hall d (or_introl eq_refl)) as [(n & E) | (m & E)]; rewrite E;
      cbn [bind]; [|now exists m].
    assert (Hrest : exists x, In x rest /\
                              forall k, field_count first_line x <> Ok k).
    { destruct Hin as [<-|Hin]; [exfalso; exact (Hd' n E)|].
      exists d'. now split. }
    destruct (Nat.ltb bc n); apply IH; auto;
      intros x Hx; apply Hall; now right.
Qed.

(** Either every candidate has a count, or the count of one raises. *)
Lemma field_counts_or_raise (first_line : string) (delims : list string) :
  (forall d, In d delims -> In d POSSIBLE_DELIMS) ->
  first_line <> EmptyString -> no_crnl first_line = true ->
  (forall d, In d delims -> exists n, field_count first_line d = Ok n) \/
  (exists d, In d delims /\ forall n, field_count first_line d <> Ok n).
Proof.
  intros Hsub Hne Hl. induction delims as [|d rest IH].
  - left. intros d [].
  - destruct (field_count_outcome first_line d (Hsub d (or_introl eq_refl))
                Hne Hl) as [(n & E & _) | (m & E)].
    + destruct IH as [Hall | (x & Hx & Hno)].
      * intros x Hx. apply Hsub. now right.
      * left. intros x [<-|Hx]; [now exists n | now apply Hall].
      * right. exists x. split; [now right | exact Hno].
    + right. exists d. split; [now left|]. intros n. rewrite E. discriminate.
Qed.

Lemma sniff_fallback_blank (sample : string) :
  non_blank (splitlines sample) = [] -> sniff_fallback sample = Ok None.
Proof.
  intros H. unfold sniff_fallback. fold (non_blank (splitlines sample)).
  now rewrite H.
Qed.

(** With a count for every candidate the fallback returns the candidate the
    loop ends with. *)
Lemma sniff_fallback_counts (sample first_line : string) (rest : list string) :
  non_blank (splitlines sample) = first_line :: rest ->
  (forall d, In d POSSIBLE_DELIMS ->
     exists n, field_count first_line d = Ok n) ->
  exists d n,
    sniff_fallback sample = Ok (Some d) /\
    sniff_state first_line POSSIBLE_DELIMS (Some d) n.
Proof.
  intros E Hall. unfold sniff_fallback. fold (non_blank (splitlines sample)).
  rewrite E.
  destruct (first_non_blank_line _ _ _ E) as [Hne Hl].
  destruct (best_delimiter_state first_line POSSIBLE_DELIMS [] None 0)
    as (r & bc' & Hr & Hst).
  - intros d Hd. destruct (Hall d Hd) as (n & Hn). exists n.
    split; [exact Hn | exact (field_count_positive _ _ _ Hd Hne Hl Hn)].
  - simpl. now split.
  - simpl in Hst. destruct r as [d|].
    + exists d, bc'. now split.
    + destruct Hst as [_ Habs]. discriminate.
Qed.

(** When the count of a candidate raises, so does the fallback. *)
Lemma sniff_fallback_raises (sample first_line : string) (rest : list string) :
  non_blank (splitlines sample) = first_line :: rest ->
  (exists d, In d POSSIBLE_DELIMS /\
             forall n, field_count first_line d <> Ok n) ->
  exists m, sniff_fallback sample = Raise (CsvError m).
Proof.
  intros E Hraise. unfold sniff_fallback. fold (non_blank (splitlines sample)).
  rewrite E.
  destruct (first_non_blank_line _ _ _ E) as [Hne Hl].
  apply best_delimiter_raises; [|exact Hraise].
  intros d Hd.
  destruct (field_count_outcome first_line d Hd Hne Hl)
    as [(n & Hn & _) | Hm]; [left; now exists n | now right].
Qed.

Lemma sniff_state_in (first_line d : string) (seen : list string) (n : nat) :
  sniff_state first_line seen (Some d) n -> In d seen.
Proof.
  intros (before & after & -> & _). apply in_or_app. right. now left.
Qed.

Lemma set_mem_in (x : string) (s : list string) :
  set_mem x s = true <-> In x s.
Proof.
  unfold set_mem. rewrite existsb_exists. split.
  - intros (y & Hy & E). apply String.eqb_eq in E. now subst.
  - intros H. exists x. split; [assumption | apply String.eqb_refl].
Qed.

(** The fallback returns none, or one of the four candidates, or raises the
    error of the csv module. *)
Lemma sniff_fallback_outcome (sample : string) :
  sniff_fallback sample = Ok None \/
  (exists d, sniff_fallback sample = Ok (Some d) /\ In d POSSIBLE_DELIMS) \/
  (exists m, sniff_fallback sample = Raise (CsvError m)).
Proof.
  destruct (non_blank (splitlines sample)) as [|first_line rest] eqn:E.
  - left. now apply sniff_fallback_blank.
  - right. destruct (first_non_blank_line _ _ _ E) as [Hne Hl].
    destruct (field_counts_or_raise first_line POSSIBLE_DELIMS
                (fun d H => H) Hne Hl) as [Hall | Hraise].
    + left. destruct (sniff_fallback_counts _ _ _ E Hall) as (d & n & H & Hst).
      exists d. split; [exact H | eapply sniff_state_in; eauto].
    + right. eapply sniff_fallback_raises; eauto.
Qed.

Lemma sniff_delimiter_outcome (csv_sniff : string -> option string)
  (sample : string) :
  sniff_delimiter csv_sniff sample = Ok None \/
  (exists d, sniff_delimiter csv_sniff sample = Ok (Some d)
             /\ In d POSSIBLE_DELIMS) \/
  (exists m, sniff_delimiter csv_sniff sample = Raise (CsvError m)).
Proof.
  unfold sniff_delimiter. destruct (csv_sniff sample) as [d|];
    [|apply sniff_fallback_outcome].
  destruct (set_mem d POSSIBLE_DELIMS) eqn:E; [|apply sniff_fallback_outcome].
  right. left. exists d. split; [reflexivity | now apply set_mem_in].
Qed.

(** C5 (as amended). For every sample on which the statistical sniff fails:
    the sniffer returns none when the sample has no non-blank line, and only
    then.  Otherwise, when [csv.reader] gives a field count on the first
    non-blank line for each of comma, tab, semicolon and pipe (it does when
    that line has at most 131072 characters), the sniffer returns the
    candidate with the greatest count, every candidate before it in that
    order having strictly fewer fields and every candidate after it at most
    as many; every count is at least one, so a line that no candidate splits
    gives the comma. *)
Theorem sniff_fallback_choice (csv_sniff : string -> option string)
  (sample : string) :
  csv_sniff sample = None ->
  match non_blank (splitlines sample) with
  | [] => sniff_delimiter csv_sniff sample = Ok None
  | first_line :: _ =>
      sniff_delimiter csv_sniff sample <> Ok None /\
      (within_limit first_line = true ->
       forall d, In d POSSIBLE_DELIMS ->
                 exists n, field_count first_line d = Ok n) /\
      ((forall d, In d POSSIBLE_DELIMS ->
                  exists n, field_count first_line d = Ok n) ->
       exists d n before after,
         sniff_delimiter csv_sniff sample = Ok (Some d) /\
         POSSIBLE_DELIMS = app before (d :: after) /\
         field_count first_line d = Ok n /\ 1 <= n /\
         (forall d', In d' before ->
            exists n', field_count first_line d' = Ok n' /\ n' < n) /\
         (forall d', In d' after ->
            exists n', field_count first_line d' = Ok n' /\ n' <= n))
  end.
Proof.
  intros Hfail. unfold sniff_delimiter. rewrite Hfail.
  destruct (non_blank (splitlines sample)) as [|first_line rest] eqn:E;
    [now apply sniff_fallback_blank|].
  destruct (first_non_blank_line _ _ _ E) as [Hne Hl].
  split; [|split].
  - destruct (field_counts_or_raise first_line POSSIBLE_DELIMS
                (fun d H => H) Hne Hl) as [Hall | Hraise].
    + destruct (sniff_fallback_counts _ _ _ E Hall) as (d & n & H & _).
      rewrite H. discriminate.
    + destruct (sniff_fallback_raises _ _ _ E Hraise) as (m & H).
      rewrite H. discriminate.
  - intros Hlim d Hd. now apply field_count_accepted.
  - intros Hall.
    destruct (sniff_fallback_counts _ _ _ E Hall)
      as (d & n & Hd & before & after & Hsplit & Hc & Hn & Hb & Ha).
    exists d, n, before, after. repeat split; auto.
Qed.

Lemma sniff_fallback_choice_witness :
  exists d n before after,
    sniff_delimiter (fun _ => None) "a;b,c;d" = Ok (Some d) /\
    POSSIBLE_DELIMS = app before (d :: after) /\
    field_count "a;b,c;d" d = Ok n /\ 1 <= n /\
    (forall d', In d' before ->
       exists n', field_count "a;b,c;d" d' = Ok n' /\ n' < n) /\
    (forall d', In d' after ->
       exists n', field_count "a;b,c;d" d' = Ok n' /\ n' <= n).
Proof.
  pose proof (sniff_fallback_choice (fun _ => None) "a;b,c;d" eq_refl) as H.
  change (non_blank (splitlines "a;b,c;d")) with ["a;b,c;d"] in H.
  cbv beta iota in H.
  destruct H as (_ & Hacc & Hbest).
  exact (Hbest (Hacc eq_refl)).
Defined.

(** The sample [abc], on which the statistical sniff fails: no candidate
    splits its only line (each yields one field, no extra one), and the
    sniffer returns the comma, not none. *)
Lemma sniff_unsplit_line_gives_comma :
  map (field_count "abc") POSSIBLE_DELIMS = [Ok 1; Ok 1; Ok 1; Ok 1] /\
  sniff_delimiter (fun _ => None) "abc" = Ok (Some ",").
Proof. split; reflexivity. Qed.

(** ** The three-row reader *)

Lemma reader_raise (lines : list string) (delimiter : string) (e : exn) :
  Csv.reader lines delimiter = Raise e ->
  e = TypeError \/ exists m, e = CsvError m.
Proof.
  unfold Csv.reader. destruct delimiter as [|d [|c r]].
  - intros [= <-]. now left.
  - intros H. right. exact (reader_rows_raise d lines _ _ e H).
  - intros [= <-]. now left.
Qed.

Lemma pad_to_length (n : nat) (row : list string) :
  length row <= n -> length (pad_to n row) = n.
Proof.
  intros H. unfold pad_to. rewrite length_app, repeat_length. lia.
Qed.

(** What the reader returns once the text is decoded, the delimiter found
    and three rows or more parsed. *)
Lemma read_three_row_csv_rows (csv_sniff : string -> option string)
  (decode : list Byte.byte -> string -> option string)
  (raw : list Byte.byte) (delimiter : option string) (encoding : string)
  (text used : string) (r0 r1 r2 : list string) (more : list (list string)) :
  decode raw encoding = Some text ->
  delimiter_or_sniff csv_sniff delimiter text = Ok (Some used) ->
  Csv.reader (stringio_lines text) used = Ok (r0 :: r1 :: r2 :: more) ->
  let n := Nat.max (length r0) (Nat.max (length r1) (length r2)) in
  read_three_row_csv csv_sniff decode raw delimiter encoding
  = Ok (if negb (looks_like_types (pad_to n r1))
           && looks_like_types (pad_to n r2)
        then (pad_to n r0, pad_to n r2, pad_to n r1)
        else (pad_to n r0, pad_to n r1, pad_to n r2)).
Proof.
  intros Hdec Hdel Hrows n. unfold read_three_row_csv.
  rewrite Hdec. simpl. rewrite Hdel. simpl.
  destruct used as [|ch rest]; [discriminate Hrows|].
  rewrite Hrows. simpl. fold n.
  destruct (negb (looks_like_types (pad_to n r1))
            && looks_like_types (pad_to n r2)); reflexivity.
Qed.

(** C10. With the empty string as explicit delimiter the reader does what it
    does with no delimiter at all: it runs the sniffer on the decoded text,
    and raises the error "Could not detect a delimiter ..." exactly when the
    sniffer returns none. *)
Theorem empty_delimiter_runs_sniffer (csv_sniff : string -> option string)
  (decode : list Byte.byte -> string -> option string)
  (raw : list Byte.byte) (encoding : string) :
  read_three_row_csv csv_sniff decode raw (Some EmptyString) encoding
  = read_three_row_csv csv_sniff decode raw None encoding
  /\ delimiter_or_sniff csv_sniff (Some EmptyString)
     = sniff_delimiter csv_sniff
  /\ match decode raw encoding with
     | Some text =>
         read_three_row_csv csv_sniff decode raw (Some EmptyString) encoding
         = Raise (ValueError NO_DELIMITER)
         <-> sniff_delimiter csv_sniff text = Ok None
     | None =>
         read_three_row_csv csv_sniff decode raw (Some EmptyString) encoding
         = Raise UnicodeDecodeError
     end.
Proof.
  split; [reflexivity|]. split; [reflexivity|].
  unfold read_three_row_csv.
  destruct (decode raw encoding) as [text|]; [|reflexivity].
  simpl.
  destruct (sniff_delimiter_outcome csv_sniff text)
    as [H | [(d & H & Hin) | (m & H)]]; rewrite H; simpl.
  - split; reflexivity.
  - destruct (possible_delims_inv d Hin) as (ch & ->).
    split; [|discriminate].
    intros Habs. exfalso.
    destruct (Csv.reader (stringio_lines text) (String ch EmptyString))
      as [rows|e] eqn:E; simpl in Habs.
    + destruct rows as [|a [|b [|c more]]]; simpl in Habs;
        try (unfold NO_DELIMITER in Habs; discriminate Habs).
      destruct (negb (looks_like_types _) && looks_like_types _);
        discriminate Habs.
    + injection Habs as ->.
      destruct (reader_raise _ _ _ E) as [?|[m ?]]; discriminate.
  - split; discriminate.
Qed.

(** C8. For every input that parses into at least three rows, the reader
    returns three rows whose common length is the greatest length of the
    first three parsed rows; each is one of those rows, whole and in place,
    followed by empty cells only: the description row is the first parsed
    row, and the other two are the second and third parsed rows, in this or
    in the swapped order. *)
Theorem read_pads_to_longest (csv_sniff : string -> option string)
  (decode : list Byte.byte -> string -> option string)
  (raw : list Byte.byte) (delimiter : option string) (encoding : string)
  (text used : string) (r0 r1 r2 : list string) (more : list (list string)) :
  decode raw encoding = Some text ->
  delimiter_or_sniff csv_sniff delimiter text = Ok (Some used) ->
  Csv.reader (stringio_lines text) used = Ok (r0 :: r1 :: r2 :: more) ->
  let n := Nat.max (length r0) (Nat.max (length r1) (length r2)) in
  exists descriptions type_labels colnames,
    read_three_row_csv csv_sniff decode raw delimiter encoding
    = Ok (descriptions, type_labels, colnames) /\
    length descriptions = n /\ length type_labels = n /\
    length colnames = n /\
    descriptions = app r0 (repeat EmptyString (n - length r0)) /\
    ((type_labels = app r1 (repeat EmptyString (n - length r1)) /\
      colnames = app r2 (repeat EmptyString (n - length r2))) \/
     (type_labels = app r2 (repeat EmptyString (n - length r2)) /\
      colnames = app r1 (repeat EmptyString (n - length r1)))).
Proof.
  intros Hdec Hdel Hrows n.
  rewrite (read_three_row_csv_rows _ _ _ _ _ _ _ _ _ _ _ Hdec Hdel Hrows).
  fold n.
  assert (H0 : length (pad_to n r0) = n) by (apply pad_to_length; lia).
  assert (H1 : length (pad_to n r1) = n) by (apply pad_to_length; lia).
  assert (H2 : length (pad_to n r2) = n) by (apply pad_to_length; lia).
  destruct (negb (looks_like_types (pad_to n r1))
            && looks_like_types (pad_to n r2)).
  - exists (pad_to n r0), (pad_to n r2), (pad_to n r1).
    repeat split; auto.
  - exists (pad_to n r0), (pad_to n r1), (pad_to n r2).
    repeat split; auto.
Qed.

Lemma read_pads_to_longest_witness :
  exists descriptions type_labels colnames,
    read_three_row_csv (fun _ => None) decode_latin1
      (file_of_lines ["Lead,Stage"; "String"; "name,status,extra"])
      (Some ",") "latin-1"
    = Ok (descriptions, type_labels, colnames) /\
    length descriptions = 3 /\ length type_labels = 3 /\
    length colnames = 3 /\
    descriptions = ["Lead"; "Stage"; EmptyString] /\
    ((type_labels = ["String"; EmptyString; EmptyString] /\
      colnames = ["name"; "status"; "extra"]) \/
     (type_labels = ["name"; "status"; "extra"] /\
      colnames = ["String"; EmptyString; EmptyString])).
Proof.
  exact (read_pads_to_longest (fun _ => None) decode_latin1
           (file_of_lines ["Lead,Stage"; "String"; "name,status,extra"])
           (Some ",") "latin-1"
           (string_of_list_byte
              (file_of_lines ["Lead,Stage"; "String"; "name,status,extra"]))
           ","
           ["Lead"; "Stage"] ["String"] ["name"; "status"; "extra"] []
           eq_refl eq_refl eq_refl).
Defined.

(** The test [n in KNOWN_LABELS or n.startswith("enum")] of the code is the
    three-way test of the specification: "enum (multi select)", the one known
    label that is neither a key of the table nor "enum", starts with "enum". *)
Lemma type_hit_known (n : string) :
  set_mem n KNOWN_LABELS || startswith n "enum" = type_hit n.
Proof.
  unfold type_hit, set_mem, KNOWN_LABELS, ENUM_LABELS.
  rewrite existsb_app. simpl existsb at 2.
  destruct (String.eqb_spec n "enum (multi select)") as [->|_].
  - reflexivity.
  - rewrite !orb_false_r. reflexivity.
Qed.

Lemma filter_ext_eq {A : Type} (f g : A -> bool) (l : list A) :
  (forall x, f x = g x) -> filter f l = filter g l.
Proof. intros H. induction l as [|x l IH]; simpl; [|rewrite H, IH]; auto. Qed.

Lemma looks_like_types_unfold (cells : list string) :
  looks_like_types cells
  = match non_blank cells with
    | [] => false
    | nb =>
        ratio_at_least_055
          (length (filter type_hit (map normalize_sheet_type nb)))
          (length nb)
    end.
Proof.
  unfold looks_like_types. fold (non_blank cells).
  rewrite (filter_ext_eq _ type_hit _ type_hit_known).
  destruct (non_blank cells); reflexivity.
Qed.

(** C6 (as amended). For every pair of parsed type-label row and column-name
    row (after padding), the reader returns the two rows swapped if and only
    if [looks_like_types] is false on the type-label row and true on the
    column-name row; [looks_like_types] is false when no cell has a
    character that is not white space, and otherwise holds iff, among the
    cells that have one, the share of those whose normalization is a key of
    the simple-type table, exactly "enum", or starts with "enum" is at least
    11/20 (0.55). *)
Theorem reader_swap_rule (csv_sniff : string -> option string)
  (decode : list Byte.byte -> string -> option string)
  (raw : list Byte.byte) (delimiter : option string) (encoding : string)
  (text used : string) (r0 r1 r2 : list string) (more : list (list string)) :
  decode raw encoding = Some text ->
  delimiter_or_sniff csv_sniff delimiter text = Ok (Some used) ->
  Csv.reader (stringio_lines text) used = Ok (r0 :: r1 :: r2 :: more) ->
  let n := Nat.max (length r0) (Nat.max (length r1) (length r2)) in
  let type_labels := pad_to n r1 in
  let colnames := pad_to n r2 in
  read_three_row_csv csv_sniff decode raw delimiter encoding
  = Ok (if negb (looks_like_types type_labels) && looks_like_types colnames
        then (pad_to n r0, colnames, type_labels)
        else (pad_to n r0, type_labels, colnames))
  /\ (forall cells,
        (non_blank cells = [] -> looks_like_types cells = false) /\
        (non_blank cells <> [] ->
           (looks_like_types cells = true <->
            11 * length (non_blank cells)
            <= 20 * length (filter type_hit
                              (map normalize_sheet_type (non_blank cells)))))).
Proof.
  intros Hdec Hdel Hrows n type_labels colnames. split.
  - exact (read_three_row_csv_rows _ _ _ _ _ _ _ _ _ _ _ Hdec Hdel Hrows).
  - intros cells. rewrite looks_like_types_unfold.
    destruct (non_blank cells) as [|c nb] eqn:E.
    + split; [reflexivity | congruence].
    + split; [discriminate|]. intros _.
      unfold ratio_at_least_055. apply Nat.leb_le.
Qed.

(** The reversed example of the specification: type row
    [Lead Name; Status; Created] and name row [String; Enum; DateTime] come
    back swapped. *)
Lemma reader_swap_rule_witness :
  read_three_row_csv (fun _ => None) decode_latin1
    (file_of_lines ["a,b,c"; "Lead Name,Status,Created";
                    "String,Enum,DateTime"])
    (Some ",") "latin-1"
  = Ok (["a"; "b"; "c"],
        ["String"; "Enum"; "DateTime"],
        ["Lead Name"; "Status"; "Created"]).
Proof.
  exact (proj1
    (reader_swap_rule (fun _ => None) decode_latin1
       (file_of_lines ["a,b,c"; "Lead Name,Status,Created";
                       "String,Enum,DateTime"])
       (Some ",") "latin-1"
       (string_of_list_byte
          (file_of_lines ["a,b,c"; "Lead Name,Status,Created";
                          "String,Enum,DateTime"]))
       ","
       ["a"; "b"; "c"] ["Lead Name"; "Status"; "Created"]
       ["String"; "Enum"; "DateTime"] []
       eq_refl eq_refl eq_refl)).
Defined.

(** A name row [String; (one space)] under the type row [notes; (one space)]:
    read literally, over the cells that are not the empty string, the name
    row does not look like types (one hit in two cells), so the rows would
    stay; the code leaves the blank cell out (one hit in one cell) and swaps
    the rows. *)
Lemma blank_cell_swaps_rows :
  looksLikeTypes_spec ["notes"; " "] = false /\
  looksLikeTypes_spec ["String"; " "] = false /\
  looks_like_types ["String"; " "] = true /\
  read_three_row_csv (fun _ => None) decode_latin1
    (file_of_lines ["d,e"; "notes, "; "String, "]) (Some ",") "latin-1"
  = Ok (["d"; "e"], ["String"; " "], ["notes"; " "]).
Proof. repeat split. Qed.

(** ** The DDL assembler *)

Lemma column_line_split (n i : nat) (def_sql comment_text : string) :
  column_line n i (def_sql, comment_text)
  = column_base n i def_sql ++ inline_comment comment_text.
Proof.
  unfold column_line, column_base, inline_comment.
  destruct (Nat.eqb i (n - 1)); destruct (truthy comment_text); simpl;
    rewrite ?append_empty_r, ?append_assoc; reflexivity.
Qed.

Lemma emit_columns_split (n : nat) (cols : list (string * string)) :
  forall i,
    emit_columns n i cols
    = with_comments (column_bases n i (map fst cols)) (map snd cols).
Proof.
  induction cols as [|[def_sql c] cols IH]; intros i; [reflexivity|].
  cbn [emit_columns]. rewrite column_line_split, IH. reflexivity.
Qed.

Lemma column_bases_length (n : nat) (defs : list string) :
  forall i, length (column_bases n i defs) = length defs.
Proof. induction defs as [|d defs IH]; intros i; simpl; auto. Qed.

(** The lines the assembler emits: the preamble, the column lines (each a
    base with its inline comment), the closing line and the warnings block. *)
Lemma ddl_lines_structure (table_name : string)
  (descriptions type_labels colnames : list string) :
  let defs := column_definitions descriptions type_labels colnames in
  ddl_lines table_name descriptions type_labels colnames
  = app (preamble table_name)
      (app (with_comments (column_bases (length defs) 0 defs)
              (column_comments descriptions type_labels colnames))
           (");" :: warning_lines
                      (accumulated_warnings descriptions type_labels colnames))).
Proof.
  unfold ddl_lines, column_definitions, column_comments, column_specs,
    accumulated_warnings, preamble.
  destruct (build_columns (zip3 descriptions type_labels colnames) [] [])
    as [w cols].
  simpl. rewrite emit_columns_split, length_map. reflexivity.
Qed.

(** The first loop reads the descriptions only to build the comment of a
    column: its warnings and its column definitions are those of any other
    description row of the same length. *)
Lemma build_columns_frame (d1 : list string) :
  forall d2 types names w c1 c2,
    length d1 = length d2 ->
    map fst c1 = map fst c2 ->
    fst (build_columns (zip3 d1 types names) w c1)
    = fst (build_columns (zip3 d2 types names) w c2)
    /\ map fst (snd (build_columns (zip3 d1 types names) w c1))
       = map fst (snd (build_columns (zip3 d2 types names) w c2)).
Proof.
  induction d1 as [|x d1 IH]; intros [|y d2] types names w c1 c2 Hlen Hc;
    try discriminate Hlen.
  - simpl. now split.
  - injection Hlen as Hlen.
    destruct types as [|t types]; [simpl; now split|].
    destruct names as [|n names]; [simpl; now split|].
    simpl.
    destruct (truthy (strip n)); simpl; [|now apply IH].
    destruct (map_type (strip t) (strip n)) as [pg wn].
    destruct (truthy pg); simpl; [|now apply IH].
    apply IH; [assumption|].
    rewrite !map_app. simpl. now rewrite Hc.
Qed.

(** C9. For every table name, type-label row and column-name row, and every
    two description rows of the same length: the assembler builds the same
    column definitions (quoted name and type) and accumulates the same
    warnings, and the lines it emits are the same preamble, the same column
    lines up to the inline comment that follows each definition, and the same
    closing line and warnings block. *)
Theorem descriptions_only_in_comments (table_name : string)
  (type_labels colnames d1 d2 : list string) :
  length d1 = length d2 ->
  let defs := column_definitions d1 type_labels colnames in
  let bases := column_bases (length defs) 0 defs in
  let tail := ");" :: warning_lines (accumulated_warnings d1 type_labels colnames) in
  column_definitions d2 type_labels colnames = defs /\
  accumulated_warnings d2 type_labels colnames
  = accumulated_warnings d1 type_labels colnames /\
  length (column_comments d1 type_labels colnames) = length bases /\
  length (column_comments d2 type_labels colnames) = length bases /\
  ddl_lines table_name d1 type_labels colnames
  = app (preamble table_name)
        (app (with_comments bases (column_comments d1 type_labels colnames))
             tail) /\
  ddl_lines table_name d2 type_labels colnames
  = app (preamble table_name)
        (app (with_comments bases (column_comments d2 type_labels colnames))
             tail).
Proof.
  intros Hlen defs bases tail.
  destruct (build_columns_frame d1 d2 type_labels colnames [] [] [] Hlen eq_refl)
    as [Hw Hd].
  assert (Hdefs : column_definitions d2 type_labels colnames = defs)
    by (symmetry; exact Hd).
  assert (Hwarn : accumulated_warnings d2 type_labels colnames
                  = accumulated_warnings d1 type_labels colnames)
    by (symmetry; exact Hw).
  assert (Hb : length bases = length defs) by apply column_bases_length.
  repeat split.
  - exact Hdefs.
  - exact Hwarn.
  - rewrite Hb. unfold column_comments, defs, column_definitions.
    now rewrite !length_map.
  - rewrite Hb, <- Hdefs. unfold column_comments, column_definitions.
    now rewrite !length_map.
  - apply ddl_lines_structure.
  - rewrite ddl_lines_structure, Hdefs, Hwarn. reflexivity.
Qed.

Lemma descriptions_only_in_comments_witness :
  ddl_lines "leads" ["Name"; "Status"] ["String"; "Enum"]
            ["full_name"; "status"]
  = app (preamble "leads")
        (app (with_comments ["  full_name text,"; "  status status"]
                            ["Name"; "Status"])
             [");"])
  /\ ddl_lines "leads" [EmptyString; "Stage of  the lead"] ["String"; "Enum"]
               ["full_name"; "status"]
     = app (preamble "leads")
           (app (with_comments ["  full_name text,"; "  status status"]
                               [EmptyString; "Stage of the lead"])
                [");"]).
Proof.
  pose proof (descriptions_only_in_comments "leads" ["String"; "Enum"]
                ["full_name"; "status"] ["Name"; "Status"]
                [EmptyString; "Stage of  the lead"] eq_refl) as H.
  exact (conj (proj1 (proj2 (proj2 (proj2 (proj2 H)))))
              (proj2 (proj2 (proj2 (proj2 (proj2 H)))))).
Defined.

(** *** The surrogate-key line is emitted once *)

Lemma mismatch_neq (p : string) :
  forall s, mismatch p s = true ->
            forall rest tail, s ++ rest <> p ++ tail.
Proof.
  induction p as [|a p IH]; intros [|b s] H rest tail; simpl in H;
    try discriminate.
  simpl. intros [= -> E].
  rewrite Ascii.eqb_refl in H. simpl in H. exact (IH s H rest tail E).
Qed.

(** The types [map_type] returns for a named column. *)
Lemma map_type_shape (label col : string) :
  truthy col = true ->
  fst (map_type label col) = quote_ident col \/
  fst (map_type label col) = quote_ident col ++ "[]" \/
  In (fst (map_type label col)) (map snd SIMPLE_TYPE_MAP) \/
  fst (map_type label col) = "text".
Proof.
  intros Hc. unfold map_type. rewrite Hc. cbn [negb].
  destruct (String.eqb (normalize_sheet_type label) "enum");
    [left; reflexivity|].
  destruct (String.eqb (normalize_sheet_type label) "enum (multi select)");
    [right; left; reflexivity|].
  destruct (dict_get SIMPLE_TYPE_MAP (normalize_sheet_type label)) as [pg|] eqn:E;
    cbn [fst].
  - right; right; left. exact (dict_get_some _ _ _ E).
  - right; right; right. reflexivity.
Qed.

(** No type of the column [id] starts with the letter u. *)
Lemma id_column_type (label : string) :
  mismatch "u" (fst (map_type label "id")) = true.
Proof.
  destruct (map_type_shape label "id" eq_refl) as [H|[H|[H|H]]];
    try (rewrite H; reflexivity).
  simpl in H.
  repeat (destruct H as [<-|H]; [reflexivity|]). destruct H.
Qed.

Lemma ident_rest_not_space (c : ascii) (r : string) :
  ident_rest (String c r) = true -> Ascii.eqb " " c = false.
Proof.
  intros H. destruct (Ascii.eqb_spec " "%char c) as [<-|]; [|reflexivity].
  simpl in H. discriminate H.
Qed.

(** A column definition differs from the text [id u] within its first four
    characters: a quoted name starts with a double quote, an unquoted one
    holds no space, and the column [id] has no type that starts with u. *)
Lemma def_sql_mismatch (label col : string) :
  truthy col = true ->
  truthy (fst (map_type label col)) = true ->
  mismatch "id u" (quote_ident col ++ " " ++ fst (map_type label col)) = true.
Proof.
  intros Hc Hpg. unfold quote_ident at 1.
  destruct (is_valid_identifier col) eqn:V; [|reflexivity].
  destruct col as [|c1 r1]; [discriminate|].
  simpl in V. apply andb_true_iff in V as [_ V].
  cbn [append mismatch].
  destruct (Ascii.eqb_spec "i"%char c1) as [<-|]; [|reflexivity].
  destruct r1 as [|c2 r2]; [reflexivity|].
  cbn [append mismatch negb orb].
  destruct (Ascii.eqb_spec "d"%char c2) as [<-|]; [|reflexivity].
  destruct r2 as [|c3 r3].
  - cbn [append mismatch negb orb Ascii.eqb Bool.eqb andb].
    pose proof (id_column_type label) as H.
    destruct (fst (map_type label "id")) as [|u pg]; [discriminate|].
    simpl in *. now rewrite orb_false_r in *.
  - cbn [append mismatch negb orb].
    assert (V' : ident_rest (String c3 r3) = true) by exact V.
    now rewrite (ident_rest_not_space c3 r3 V').
Qed.

(** Every column the first loop keeps has such a definition. *)
Lemma build_columns_defs (rows : list (string * string * string)) :
  forall w cols,
    Forall (fun item => mismatch "id u" (fst item) = true) cols ->
    Forall (fun item => mismatch "id u" (fst item) = true)
           (snd (build_columns rows w cols)).
Proof.
  induction rows as [|[[desc typelab] col] rows IH]; intros w cols Hcols;
    simpl; [assumption|].
  destruct (truthy (strip col)) eqn:Hc; simpl; [|now apply IH].
  destruct (map_type (strip typelab) (strip col)) as [pg wn] eqn:Hm.
  destruct (truthy pg) eqn:Hpg; simpl; [|now apply IH].
  apply IH. apply Forall_app. split; [assumption|].
  constructor; [|constructor]. simpl.
  pose proof (def_sql_mismatch (strip typelab) (strip col) Hc) as H.
  rewrite Hm in H. simpl in H. now apply H.
Qed.

Lemma column_line_not_id (n i : nat) (item : string * string) :
  mismatch "id u" (fst item) = true -> column_line n i item <> ID_LINE.
Proof.
  destruct item as [def_sql c]. cbn [fst]. intros H.
  rewrite column_line_split. unfold column_base, ID_LINE.
  cbn [append]. intros [= E].
  rewrite append_assoc in E.
  exact (mismatch_neq "id u" def_sql H _
           "uid primary key default gen_random_uuid()," E).
Qed.

Lemma emit_columns_no_id (n : nat) (cols : list (string * string)) :
  forall i,
    Forall (fun item => mismatch "id u" (fst item) = true) cols ->
    ~ In ID_LINE (emit_columns n i cols).
Proof.
  induction cols as [|item cols IH]; intros i Hall; simpl; [tauto|].
  inversion Hall as [|? ? Hitem Hrest]; subst.
  intros [E|Hin].
  - exact (column_line_not_id n i item Hitem E).
  - exact (IH (S i) Hrest Hin).
Qed.

Lemma warning_lines_no_id (warnings : list string) :
  ~ In ID_LINE (warning_lines warnings).
Proof.
  unfold warning_lines. destruct warnings as [|w ws]; [simpl; tauto|].
  intros [E|[E|Hin]]; try discriminate.
  apply in_map_iff in Hin as (x & E & _). discriminate.
Qed.

Lemma preamble_id_once (table_name : string) :
  count_occ string_dec (preamble table_name) ID_LINE = 1.
Proof.
  unfold preamble.
  do 4 (rewrite count_occ_cons_neq
          by (intros E; unfold ID_LINE in E; simpl in E; discriminate E)).
  now rewrite count_occ_cons_eq.
Qed.

(** The surrogate-key line occurs exactly once among the emitted lines. *)
Lemma id_line_once (table_name : string)
  (descriptions type_labels colnames : list string) :
  count_occ string_dec
    (ddl_lines table_name descriptions type_labels colnames) ID_LINE = 1.
Proof.
  unfold ddl_lines.
  pose proof (build_columns_defs (zip3 descriptions type_labels colnames)
                [] [] (Forall_nil _)) as Hdefs.
  destruct (build_columns (zip3 descriptions type_labels colnames) [] [])
    as [w cols].
  cbn [snd] in Hdefs.
  fold (preamble table_name).
  rewrite !count_occ_app, preamble_id_once.
  rewrite (proj1 (count_occ_not_In string_dec _ _)
             (emit_columns_no_id (length cols) cols 0 Hdefs)).
  rewrite (proj1 (count_occ_not_In string_dec _ _) (warning_lines_no_id w)).
  rewrite count_occ_cons_neq by discriminate.
  reflexivity.
Qed.

(** *** The lines of the returned text *)

Lemma split_lf_from_cur (s : string) :
  forall cur,
    split_lf_from cur s
    = match split_lf_from EmptyString s with
      | h :: t => (cur ++ h) :: t
      | [] => [cur]
      end.
Proof.
  induction s as [|c s IH]; intros cur; simpl.
  - now rewrite append_empty_r.
  - destruct (Ascii.eqb c LF).
    + now rewrite append_empty_r.
    + rewrite IH. rewrite (IH (String c EmptyString)).
      destruct (split_lf_from EmptyString s) as [|h t]; [reflexivity|].
      now rewrite append_assoc.
Qed.

Lemma split_lf_from_not_nil (s : string) :
  forall cur, split_lf_from cur s <> [].
Proof.
  induction s as [|c s IH]; intros cur; simpl; [discriminate|].
  destruct (Ascii.eqb c LF); [discriminate | apply IH].
Qed.

(** The lines of two texts joined by a line feed. *)
Lemma lines_of_app_lf (a b : string) :
  lines_of (a ++ String LF b) = app (lines_of a) (lines_of b).
Proof.
  unfold lines_of. induction a as [|c a IH]; simpl; [reflexivity|].
  destruct (Ascii.eqb c LF).
  - now rewrite IH.
  - rewrite (split_lf_from_cur (a ++ String LF b)), IH.
    rewrite (split_lf_from_cur a (String c EmptyString)).
    pose proof (split_lf_from_not_nil a EmptyString) as Hne.
    destruct (split_lf_from EmptyString a) as [|h t]; [congruence|].
    reflexivity.
Qed.

(** The lines of a joined text are the lines of its items, in order. *)
Lemma lines_of_join (items : list string) :
  items <> [] ->
  lines_of (join (String LF EmptyString) items)
  = List.concat (map lines_of items).
Proof.
  induction items as [|x items IH]; [congruence|]. intros _.
  destruct items as [|y items].
  - simpl. now rewrite app_nil_r.
  - change (join (String LF EmptyString) (x :: y :: items))
      with (x ++ String LF (join (String LF EmptyString) (y :: items))).
    rewrite lines_of_app_lf, IH by discriminate. reflexivity.
Qed.

Lemma split_lf_from_no_lf (s : string) :
  forall cur, no_lf s = true -> split_lf_from cur s = [cur ++ s].
Proof.
  unfold no_lf. induction s as [|c s IH]; intros cur H; simpl in *.
  - now rewrite append_empty_r.
  - apply andb_true_iff in H as [Hc Hs]. apply negb_true_iff in Hc.
    rewrite Hc, (IH _ Hs), append_assoc. reflexivity.
Qed.

Lemma lines_of_no_lf (s : string) : no_lf s = true -> lines_of s = [s].
Proof. intros H. unfold lines_of. now rewrite split_lf_from_no_lf. Qed.

Lemma concat_lines_no_lf (items : list string) :
  Forall (fun s => no_lf s = true) items ->
  List.concat (map lines_of items) = items.
Proof.
  induction 1 as [|x items Hx _ IH]; simpl; [reflexivity|].
  now rewrite (lines_of_no_lf x Hx), IH.
Qed.

(** The last line of the text is the last line of the last emitted item. *)
Lemma last_line_of_join (items : list string) (closing : string) :
  no_lf closing = true ->
  last (lines_of (join (String LF EmptyString) (app items [closing])))
       EmptyString
  = closing.
Proof.
  intros H. rewrite lines_of_join by (destruct items; discriminate).
  rewrite map_app, concat_app. simpl.
  rewrite (lines_of_no_lf closing H). simpl.
  apply last_last.
Qed.

(** *** Line feeds in the emitted lines *)

Lemma no_lf_app (a b : string) : no_lf (a ++ b) = no_lf a && no_lf b.
Proof. apply all_chars_app. Qed.

Lemma all_chars_lstrip (p : ascii -> bool) (s : string) :
  all_chars p s = true -> all_chars p (lstrip s) = true.
Proof.
  induction s as [|c s IH]; simpl; [reflexivity|].
  intros H. destruct (isspace c); [|exact H].
  apply andb_true_iff in H as [_ H]. auto.
Qed.

Lemma all_chars_rstrip (p : ascii -> bool) (s : string) :
  all_chars p s = true -> all_chars p (rstrip s) = true.
Proof.
  induction s as [|c s IH]; simpl; [reflexivity|].
  intros H. apply andb_true_iff in H as [Hc Hs].
  specialize (IH Hs).
  destruct (rstrip s) as [|c' r'].
  - destruct (isspace c); simpl; [reflexivity | now rewrite Hc].
  - simpl in *. now rewrite Hc, IH.
Qed.

Lemma no_lf_strip (s : string) : no_lf s = true -> no_lf (strip s) = true.
Proof.
  intros H. unfold strip, no_lf. now apply all_chars_rstrip, all_chars_lstrip.
Qed.

Lemma no_lf_sub_ws (s : string) : forall in_run, no_lf (sub_ws in_run s) = true.
Proof.
  unfold no_lf. induction s as [|c s IH]; intros in_run; simpl; [reflexivity|].
  destruct (isspace c) eqn:Hc.
  - destruct in_run; simpl; auto.
  - simpl. rewrite IH, andb_true_r.
    destruct (Ascii.eqb_spec c LF) as [->|]; [discriminate Hc | reflexivity].
Qed.

Lemma no_lf_replace_dquote (s : string) :
  no_lf s = true -> no_lf (replace_dquote s) = true.
Proof.
  unfold no_lf. induction s as [|c s IH]; simpl; [reflexivity|].
  intros H. apply andb_true_iff in H as [Hc Hs].
  destruct (Ascii.eqb c DQUOTE); simpl; rewrite ?Hc, (IH Hs); reflexivity.
Qed.

Lemma no_lf_quote_ident (s : string) :
  no_lf s = true -> no_lf (quote_ident s) = true.
Proof.
  intros H. unfold quote_ident. destruct (is_valid_identifier s); [exact H|].
  change (no_lf (String DQUOTE EmptyString
                 ++ replace_dquote s ++ String DQUOTE EmptyString) = true).
  now rewrite !no_lf_app, no_lf_replace_dquote.
Qed.

Lemma no_lf_map_type (label col : string) :
  no_lf label = true -> no_lf col = true ->
  no_lf (fst (map_type label col)) = true /\
  Forall (fun w => no_lf w = true) (snd (map_type label col)).
Proof.
  intros Hl Hc. unfold map_type.
  destruct (String.eqb (normalize_sheet_type label) "enum").
  { destruct (negb (truthy col)); cbn [fst snd app]; split;
      auto using no_lf_quote_ident. }
  destruct (String.eqb (normalize_sheet_type label) "enum (multi select)").
  { destruct (negb (truthy col)); cbn [fst snd app]; split; auto.
    now rewrite no_lf_app, no_lf_quote_ident. }
  destruct (dict_get SIMPLE_TYPE_MAP (normalize_sheet_type label)) as [pg|] eqn:E;
    cbn [fst snd app].
  - split; [|constructor].
    apply dict_get_some in E. simpl in E.
    repeat (destruct E as [<-|E]; [reflexivity|]). destruct E.
  - split; [reflexivity|]. constructor; [|constructor].
    rewrite !no_lf_app, Hl, Hc. reflexivity.
Qed.

Lemma zip3_no_lf (descriptions : list string) :
  forall type_labels colnames,
    Forall (fun s => no_lf s = true) type_labels ->
    Forall (fun s => no_lf s = true) colnames ->
    Forall (fun r => no_lf (snd (fst r)) = true /\ no_lf (snd r) = true)
           (zip3 descriptions type_labels colnames).
Proof.
  induction descriptions as [|x ds IH]; intros ts ns Ht Hn; [constructor|].
  destruct Ht as [|t ts Ht Hts]; [constructor|].
  destruct Hn as [|n ns Hn Hns]; [constructor|].
  simpl. constructor; [now split | now apply IH].
Qed.

Lemma build_columns_no_lf (rows : list (string * string * string)) :
  forall w cols,
    Forall (fun r => no_lf (snd (fst r)) = true /\ no_lf (snd r) = true) rows ->
    Forall (fun s => no_lf s = true) w ->
    Forall (fun item => no_lf (fst item) = true /\ no_lf (snd item) = true)
           cols ->
    Forall (fun s => no_lf s = true) (fst (build_columns rows w cols)) /\
    Forall (fun item => no_lf (fst item) = true /\ no_lf (snd item) = true)
           (snd (build_columns rows w cols)).
Proof.
  induction rows as [|[[desc typelab] col] rows IH]; intros w cols Hrows Hw Hc;
    simpl; [now split|].
  inversion Hrows as [|? ? [Ht Hn] Hrest]; subst. simpl in Ht, Hn.
  destruct (truthy (strip col)); simpl; [|now apply IH].
  destruct (no_lf_map_type (strip typelab) (strip col)
              (no_lf_strip _ Ht) (no_lf_strip _ Hn)) as [Hpg Hwn].
  destruct (map_type (strip typelab) (strip col)) as [pg wn].
  simpl in Hpg, Hwn.
  assert (Hw' : Forall (fun s => no_lf s = true) (app w wn))
    by (apply Forall_app; now split).
  destruct (truthy pg); simpl; [|now apply IH].
  apply IH; auto.
  apply Forall_app. split; [assumption|].
  constructor; [|constructor]. simpl. split.
  - rewrite no_lf_app, (no_lf_quote_ident _ (no_lf_strip _ Hn)).
    exact Hpg.
  - destruct (truthy (strip desc)); [apply no_lf_sub_ws | reflexivity].
Qed.

Lemma emit_columns_no_lf (n : nat) (cols : list (string * string)) :
  forall i,
    Forall (fun item => no_lf (fst item) = true /\ no_lf (snd item) = true)
           cols ->
    Forall (fun s => no_lf s = true) (emit_columns n i cols).
Proof.
  induction cols as [|[def_sql c] cols IH]; intros i Hall; [constructor|].
  inversion Hall as [|? ? [Hd Hc] Hrest]; subst. simpl in Hd, Hc.
  cbn [emit_columns]. constructor; [|now apply IH].
  rewrite column_line_split. unfold column_base, inline_comment.
  rewrite !no_lf_app, Hd.
  destruct (Nat.eqb i (n - 1)); destruct (truthy c);
    rewrite ?no_lf_app, ?Hc; reflexivity.
Qed.

Lemma warning_lines_no_lf (warnings : list string) :
  Forall (fun s => no_lf s = true) warnings ->
  Forall (fun s => no_lf s = true) (warning_lines warnings).
Proof.
  intros H. unfold warning_lines. destruct warnings as [|w ws]; [constructor|].
  constructor; [reflexivity|]. constructor; [reflexivity|].
  apply Forall_map. eapply Forall_impl; [|exact H].
  intros s Hs. simpl. exact Hs.
Qed.

(** Without a line feed in the table name and in the type-label and
    column-name cells, no emitted line holds one. *)
Lemma ddl_lines_no_lf (table_name : string)
  (descriptions type_labels colnames : list string) :
  no_lf table_name = true ->
  Forall (fun s => no_lf s = true) type_labels ->
  Forall (fun s => no_lf s = true) colnames ->
  Forall (fun s => no_lf s = true)
         (ddl_lines table_name descriptions type_labels colnames).
Proof.
  intros Htab Ht Hn. unfold ddl_lines.
  destruct (build_columns_no_lf (zip3 descriptions type_labels colnames) [] []
              (zip3_no_lf descriptions _ _ Ht Hn) (Forall_nil _) (Forall_nil _))
    as [Hw Hc].
  destruct (build_columns (zip3 descriptions type_labels colnames) [] [])
    as [w cols].
  simpl in Hw, Hc.
  pose proof (no_lf_quote_ident _ Htab) as Hq.
  apply Forall_app. split.
  - constructor; [reflexivity|].
    constructor; [now rewrite no_lf_app, Hq|].
    constructor; [now rewrite !no_lf_app, Hq|].
    constructor; [reflexivity|].
    constructor; [reflexivity | constructor].
  - apply Forall_app. split; [now apply emit_columns_no_lf|].
    apply Forall_app. split; [|now apply warning_lines_no_lf].
    constructor; [reflexivity | constructor].
Qed.

Lemma ddl_lines_not_nil (table_name : string)
  (descriptions type_labels colnames : list string) :
  ddl_lines table_name descriptions type_labels colnames <> [].
Proof.
  unfold ddl_lines.
  destruct (build_columns (zip3 descriptions type_labels colnames) [] []).
  discriminate.
Qed.

(** C1 (as amended). For every input, the lines the assembler emits hold the
    line [  id uuid primary key default gen_random_uuid(),] exactly once, and
    the closing line [);] is followed by the warnings block only: the last
    line of the returned text is [);] when no warning was accumulated, and
    otherwise [);] is followed by an empty line, the header comment and one
    comment line per warning.  When neither the table name nor a type-label
    or column-name cell holds a line feed, the lines of the returned text are
    exactly the emitted lines, so the text contains the surrogate-key line
    exactly once. *)
Theorem id_line_and_closing_line (table_name : string)
  (descriptions type_labels colnames : list string) :
  let text :=
    generate_create_table_sql table_name descriptions type_labels colnames in
  let emitted := ddl_lines table_name descriptions type_labels colnames in
  let warnings := accumulated_warnings descriptions type_labels colnames in
  count_occ string_dec emitted ID_LINE = 1 /\
  (exists body, emitted = app body (");" :: warning_lines warnings)) /\
  (warnings = [] -> last (lines_of text) EmptyString = ");") /\
  (no_lf table_name = true ->
   Forall (fun s => no_lf s = true) type_labels ->
   Forall (fun s => no_lf s = true) colnames ->
   lines_of text = emitted /\
   count_occ string_dec (lines_of text) ID_LINE = 1).
Proof.
  intros text emitted warnings.
  assert (Hstruct : exists body,
             emitted = app body (");" :: warning_lines warnings)).
  { unfold emitted. rewrite ddl_lines_structure.
    eexists. rewrite app_assoc. reflexivity. }
  split; [apply id_line_once|]. split; [exact Hstruct|]. split.
  - intros Hw. destruct Hstruct as (body & Hb).
    unfold text, generate_create_table_sql. fold emitted.
    rewrite Hb, Hw. simpl warning_lines.
    now apply last_line_of_join.
  - intros Htab Ht Hn.
    assert (Hlines : lines_of text = emitted).
    { unfold text, generate_create_table_sql. fold emitted.
      rewrite lines_of_join by apply ddl_lines_not_nil.
      apply concat_lines_no_lf. now apply ddl_lines_no_lf. }
    split; [exact Hlines|]. rewrite Hlines. apply id_line_once.
Qed.

Lemma id_line_and_closing_line_witness :
  last (lines_of (generate_create_table_sql "leads" ["Name"; "Status"]
                    ["String"; "Enum"] ["full_name"; "status"]))
       EmptyString = ");"
  /\ count_occ string_dec
       (lines_of (generate_create_table_sql "leads" ["Name"; "Status"]
                    ["String"; "Enum"] ["full_name"; "status"]))
       ID_LINE = 1.
Proof.
  pose proof (id_line_and_closing_line "leads" ["Name"; "Status"]
                ["String"; "Enum"] ["full_name"; "status"]) as H.
  cbv zeta in H.
  destruct H as (_ & _ & Hlast & Hlines).
  split.
  - exact (Hlast eq_refl).
  - apply Hlines; [reflexivity | repeat constructor | repeat constructor].
Defined.

(** An unrecognized type label: the text ends with the comment of its
    warning, three lines after the closing line. *)
Lemma warning_block_ends_text :
  lines_of (generate_create_table_sql "leads" ["Name"] ["Foo"] ["bar"])
  = [ "-- Generated by generate_supabase_schema.py";
      "-- Table: leads";
      "create table if not exists leads (";
      "  -- Surrogate primary key for internal use";
      "  id uuid primary key default gen_random_uuid(),";
      "  bar text  -- Name";
      ");";
      EmptyString;
      "-- Warnings during generation:";
      "--   Unrecognized type 'Foo' for column 'bar', defaulting to text." ]
  /\ last (lines_of (generate_create_table_sql "leads" ["Name"] ["Foo"] ["bar"]))
          EmptyString
     = "--   Unrecognized type 'Foo' for column 'bar', defaulting to text.".
Proof. split; reflexivity. Qed.

(** A line feed in the table name breaks its two preamble lines: a table
    name that holds the surrogate-key line between two line feeds gives a
    text with three such lines. *)
Example id_line_in_table_name :
  count_occ string_dec
    (lines_of
       (generate_create_table_sql
          ("t" ++ String LF (ID_LINE ++ String LF "u")) [] [] []))
    ID_LINE = 3.
Proof. vm_compute. reflexivity. Qed.

(* ================================================================== *)
(** * Part III: further properties of the code                         *)
(* ================================================================== *)

(** ** The identifier quoter *)

Lemma append_inv_tail (a b t : string) : a ++ t = b ++ t -> a = b.
Proof.
  intros H.
  assert (Hl : list_ascii_of_string a = list_ascii_of_string b).
  { apply (app_inv_tail (list_ascii_of_string t)).
    assert (Happ : forall x y, list_ascii_of_string (x ++ y)
                   = app (list_ascii_of_string x) (list_ascii_of_string y)).
    { intros x y. induction x as [|c x IH]; simpl; [reflexivity|].
      now rewrite IH. }
    rewrite <- !Happ. now rewrite H. }
  rewrite <- (string_of_list_ascii_of_string a),
          <- (string_of_list_ascii_of_string b).
  now rewrite Hl.
Qed.

Lemma replace_dquote_injective (a : string) :
  forall b, replace_dquote a = replace_dquote b -> a = b.
Proof.
  induction a as [|x a IH]; intros [|y b]; simpl.
  - reflexivity.
  - destruct (Ascii.eqb y DQUOTE); discriminate.
  - destruct (Ascii.eqb x DQUOTE); discriminate.
  - destruct (Ascii.eqb_spec x DQUOTE) as [->|Hx];
      destruct (Ascii.eqb_spec y DQUOTE) as [->|Hy].
    + intros [= E]. now rewrite (IH b E).
    + intros [= E _]. congruence.
    + intros [= E _]. congruence.
    + intros [= -> E]. now rewrite (IH b E).
Qed.

Lemma valid_identifier_not_quoted (name : string) :
  is_valid_identifier name = true ->
  forall r, name <> String DQUOTE r.
Proof.
  destruct name as [|c s]; simpl; [discriminate|].
  intros H r [= -> _]. discriminate H.
Qed.

(** X1. [quote_ident] is injective: two different names never give the same
    quoted text, whether they are left as they are or wrapped in double
    quotes. *)
Theorem quote_ident_injective (a b : string) :
  quote_ident a = quote_ident b -> a = b.
Proof.
  unfold quote_ident.
  destruct (is_valid_identifier a) eqn:Ha;
    destruct (is_valid_identifier b) eqn:Hb; intros H.
  - exact H.
  - exfalso. exact (valid_identifier_not_quoted a Ha _ H).
  - exfalso. exact (valid_identifier_not_quoted b Hb _ (eq_sym H)).
  - injection H as H. apply append_inv_tail in H.
    now apply replace_dquote_injective.
Qed.

Lemma quote_ident_injective_witness : "order id" = "order id".
Proof. exact (quote_ident_injective "order id" "order id" eq_refl). Defined.

Lemma replace_dquote_length (s : string) :
  String.length s <= String.length (replace_dquote s).
Proof.
  induction s as [|c s IH]; simpl; [lia|].
  destruct (Ascii.eqb c DQUOTE); simpl; lia.
Qed.

Lemma length_append (a b : string) :
  String.length (a ++ b) = String.length a + String.length b.
Proof. induction a as [|c a IH]; simpl; [reflexivity | now rewrite IH]. Qed.

Lemma valid_identifier_with_line_feed (p : string) :
  simple_name p = true ->
  is_valid_identifier (p ++ String LF EmptyString) = true.
Proof.
  destruct p as [|c r]; simpl; [discriminate|].
  intros H. apply andb_true_iff in H as [Hc Hr]. rewrite Hc. simpl.
  clear Hc. induction r as [|x r IH]; simpl in *; [reflexivity|].
  apply andb_true_iff in Hr as [Hx Hr]. rewrite Hx. auto.
Qed.

(** X2. [quote_ident] returns a name unchanged exactly when the pattern
    accepts it, that is exactly for the simple names (a lowercase letter or
    underscore, then lowercase letters, digits and underscores) and for the
    simple names followed by one line feed; every other name comes back
    longer by at least the two double quotes around it. *)
Theorem quote_ident_unchanged_iff (name : string) :
  (quote_ident name = name <->
   simple_name name = true \/
   exists p, simple_name p = true /\ name = p ++ String LF EmptyString)
  /\ (quote_ident name <> name ->
      String.length name + 2 <= String.length (quote_ident name)).
Proof.
  assert (Hlen : is_valid_identifier name = false ->
                 String.length name + 2 <= String.length (quote_ident name)).
  { intros Hv. rewrite (quote_ident_quoted name Hv). simpl.
    rewrite length_append. simpl.
    pose proof (replace_dquote_length name). lia. }
  split; [split|].
  - intros H. apply is_valid_identifier_inv.
    destruct (is_valid_identifier name) eqn:Hv; [reflexivity|].
    specialize (Hlen eq_refl). rewrite H in Hlen. lia.
  - intros [H | (p & Hp & ->)].
    + now apply quote_ident_simple.
    + unfold quote_ident. now rewrite valid_identifier_with_line_feed.
  - intros H. apply Hlen.
    destruct (is_valid_identifier name) eqn:Hv; [|reflexivity].
    exfalso. apply H. unfold quote_ident. now rewrite Hv.
Qed.

(** ** The type mapper *)

Lemma quote_ident_not_empty (name : string) : quote_ident name <> EmptyString.
Proof.
  unfold quote_ident. destruct (is_valid_identifier name) eqn:H.
  - destruct name; [discriminate H | discriminate].
  - discriminate.
Qed.

Lemma append_not_empty_l (a b : string) :
  a <> EmptyString -> a ++ b <> EmptyString.
Proof. destruct a; [congruence | discriminate]. Qed.

Lemma simple_type_not_empty (key pg : string) :
  dict_get SIMPLE_TYPE_MAP key = Some pg -> pg <> EmptyString.
Proof.
  intros H. apply dict_get_some in H. simpl in H.
  repeat (destruct H as [<-|H]; [discriminate|]). destruct H.
Qed.

(** X3. [map_type] returns the empty type, the mark for a column to drop,
    exactly when the column name is empty and the label normalizes to one of
    the two enum labels; a column with a name always gets a type. *)
Theorem map_type_empty_type_iff (label col : string) :
  fst (map_type label col) = EmptyString <->
  col = EmptyString /\ In (normalize_sheet_type label) ENUM_LABELS.
Proof.
  unfold map_type, ENUM_LABELS.
  destruct (String.eqb_spec (normalize_sheet_type label) "enum") as [E1|N1].
  { rewrite E1. destruct col as [|c r]; cbn [truthy negb fst].
    - split; [intros _; split; [reflexivity | now left] | reflexivity].
    - split; [intros H; now apply quote_ident_not_empty in H
             | intros [H _]; discriminate H]. }
  destruct (String.eqb_spec (normalize_sheet_type label) "enum (multi select)")
    as [E2|N2].
  { rewrite E2. destruct col as [|c r]; cbn [truthy negb fst].
    - split; [intros _; split; [reflexivity | right; now left] | reflexivity].
    - split; [intros H; apply append_not_empty_l in H;
               [destruct H | apply quote_ident_not_empty]
             | intros [H _]; discriminate H]. }
  assert (Hno : ~ In (normalize_sheet_type label)
                  ["enum"; "enum (multi select)"])
    by (simpl; intuition congruence).
  destruct (dict_get SIMPLE_TYPE_MAP (normalize_sheet_type label)) as [pg|] eqn:E;
    cbn [fst].
  - split; [intros H; now apply simple_type_not_empty in E | tauto].
  - split; [discriminate | tauto].
Qed.

Lemma set_mem_app (x : string) (a b : list string) :
  set_mem x (app a b) = set_mem x a || set_mem x b.
Proof. unfold set_mem. apply existsb_app. Qed.

Lemma dict_get_mem (d : list (string * string)) (key : string) :
  set_mem key (map fst d) = match dict_get d key with
                            | Some _ => true
                            | None => false
                            end.
Proof.
  induction d as [|[k v] d IH]; simpl; [reflexivity|].
  destruct (String.eqb key k); [reflexivity | exact IH].
Qed.

(** X4. For a column with a name, [map_type] gives no warning exactly when
    the normalized label is one of the known labels (a key of the simple-type
    table or one of the two enum labels); and whatever the arguments, it
    gives at most one warning. *)
Theorem map_type_warns_iff_unknown (label col : string) :
  (col <> EmptyString ->
   (snd (map_type label col) = [] <->
    set_mem (normalize_sheet_type label) KNOWN_LABELS = true))
  /\ length (snd (map_type label col)) <= 1.
Proof.
  unfold KNOWN_LABELS. rewrite set_mem_app, dict_get_mem.
  unfold map_type, ENUM_LABELS, set_mem. cbn [existsb].
  destruct (String.eqb (normalize_sheet_type label) "enum").
  { rewrite orb_true_r.
    destruct col; cbn [truthy negb snd app length]; split; try lia;
      intros H; [congruence | tauto]. }
  destruct (String.eqb (normalize_sheet_type label) "enum (multi select)").
  { rewrite !orb_true_r.
    destruct col; cbn [truthy negb snd app length]; split; try lia;
      intros H; [congruence | tauto]. }
  rewrite !orb_false_r.
  destruct (dict_get SIMPLE_TYPE_MAP (normalize_sheet_type label));
    cbn [snd app length]; split; try lia; intros _; split;
    try reflexivity; discriminate.
Qed.

Lemma map_type_warns_iff_unknown_witness :
  snd (map_type " Date Time" "created") <> [] /\
  snd (map_type " DateTime " "created") = [].
Proof.
  split.
  - intros H.
    apply (proj1 (proj1 (map_type_warns_iff_unknown " Date Time" "created")
                        ltac:(discriminate))) in H.
    discriminate H.
  - apply (proj2 (proj1 (map_type_warns_iff_unknown " DateTime " "created")
                        ltac:(discriminate))).
    reflexivity.
Defined.

(** ** Normalization of type labels *)

Lemma isspace_lower_char (c : ascii) : isspace (lower_char c) = isspace c.
Proof. destruct c as [[] [] [] [] [] [] [] []]; reflexivity. Qed.

Lemma lower_char_idempotent (c : ascii) :
  lower_char (lower_char c) = lower_char c.
Proof. destruct c as [[] [] [] [] [] [] [] []]; reflexivity. Qed.

Lemma lower_idempotent (s : string) : lower (lower s) = lower s.
Proof.
  induction s as [|c s IH]; simpl; [reflexivity|].
  now rewrite lower_char_idempotent, IH.
Qed.

Lemma lstrip_lower (s : string) : lstrip (lower s) = lower (lstrip s).
Proof.
  induction s as [|c s IH]; simpl; [reflexivity|].
  rewrite isspace_lower_char. destruct (isspace c); [exact IH | reflexivity].
Qed.

Lemma rstrip_lower (s : string) : rstrip (lower s) = lower (rstrip s).
Proof.
  induction s as [|c s IH]; simpl; [reflexivity|].
  rewrite IH, isspace_lower_char.
  destruct (rstrip s); simpl; [destruct (isspace c)|]; reflexivity.
Qed.

Lemma strip_lower (s : string) : strip (lower s) = lower (strip s).
Proof. unfold strip. now rewrite lstrip_lower, rstrip_lower. Qed.

Lemma rstrip_idempotent (s : string) : rstrip (rstrip s) = rstrip s.
Proof.
  induction s as [|c s IH]; simpl; [reflexivity|].
  destruct (rstrip s) as [|c' r'] eqn:E.
  - destruct (isspace c) eqn:Hc; simpl; [reflexivity | now rewrite Hc].
  - remember (String c' r') as t eqn:Et. simpl. rewrite IH.
    subst t. reflexivity.
Qed.

(** A text that starts with a character that is not white space keeps it
    under [rstrip]. *)
Lemma lstrip_rstrip (s : string) :
  lstrip s = s -> lstrip (rstrip s) = rstrip s.
Proof.
  destruct s as [|c r]; [reflexivity|]. simpl.
  destruct (isspace c) eqn:Hc.
  - intros H. exfalso.
    assert (Hlen : forall x, String.length (lstrip x) <= String.length x).
    { induction x as [|y x IH]; simpl; [lia|].
      destruct (isspace y); simpl; lia. }
    pose proof (Hlen r) as L. rewrite H in L. simpl in L. lia.
  - intros _. destruct (rstrip r); simpl; now rewrite Hc.
Qed.

Lemma lstrip_idempotent (s : string) : lstrip (lstrip s) = lstrip s.
Proof.
  induction s as [|c s IH]; simpl; [reflexivity|].
  destruct (isspace c) eqn:Hc; [exact IH | simpl; now rewrite Hc].
Qed.

Lemma strip_idempotent (s : string) : strip (strip s) = strip s.
Proof.
  unfold strip.
  rewrite (lstrip_rstrip (lstrip s) (lstrip_idempotent s)).
  apply rstrip_idempotent.
Qed.

Lemma lower_sub_ws (s : string) :
  forall in_run, lower (sub_ws in_run s) = sub_ws in_run (lower s).
Proof.
  induction s as [|c s IH]; intros in_run; simpl; [reflexivity|].
  rewrite isspace_lower_char.
  destruct (isspace c); [destruct in_run|]; simpl; now rewrite IH.
Qed.

Lemma sub_ws_idempotent (s : string) :
  forall in_run, sub_ws in_run (sub_ws in_run s) = sub_ws in_run s.
Proof.
  induction s as [|c s IH]; intros in_run; simpl; [reflexivity|].
  destruct (isspace c) eqn:Hc.
  - destruct in_run; [apply IH|]. simpl. now rewrite IH.
  - simpl. now rewrite Hc, IH.
Qed.

Lemma lstrip_fixed_head (c : ascii) (r : string) :
  lstrip (String c r) = String c r -> isspace c = false.
Proof.
  simpl. destruct (isspace c); [|reflexivity]. intros H. exfalso.
  assert (Hlen : forall x, String.length (lstrip x) <= String.length x).
  { induction x as [|y x IH]; simpl; [lia|].
    destruct (isspace y); simpl; lia. }
  pose proof (Hlen r) as L. rewrite H in L. simpl in L. lia.
Qed.

Lemma lstrip_sub_ws (s : string) :
  lstrip s = s -> lstrip (sub_ws false s) = sub_ws false s.
Proof.
  destruct s as [|c r]; [reflexivity|]. intros H.
  pose proof (lstrip_fixed_head c r H) as Hc. simpl. rewrite Hc.
  simpl. now rewrite Hc.
Qed.

Lemma sub_ws_empty (s : string) :
  forall in_run, sub_ws in_run s = EmptyString -> all_chars isspace s = true.
Proof.
  induction s as [|c s IH]; intros in_run; simpl; [reflexivity|].
  destruct (isspace c); [|discriminate].
  destruct in_run; [apply IH | discriminate].
Qed.

Lemma all_space_rstrip (s : string) :
  all_chars isspace s = true -> rstrip s = EmptyString.
Proof.
  induction s as [|c s IH]; simpl; [reflexivity|].
  intros H. apply andb_true_iff in H as [Hc Hs].
  now rewrite (IH Hs), Hc.
Qed.

Lemma rstrip_cons_fixed (c : ascii) (t : string) :
  rstrip t = t -> t <> EmptyString -> rstrip (String c t) = String c t.
Proof.
  intros H Hne. simpl. rewrite H. destruct t; [congruence | reflexivity].
Qed.

Lemma rstrip_sub_ws (s : string) :
  forall in_run,
    rstrip s = s -> rstrip (sub_ws in_run s) = sub_ws in_run s.
Proof.
  induction s as [|c r IH]; intros in_run H; [reflexivity|].
  simpl in H.
  destruct (rstrip r) as [|c' r'] eqn:E.
  - destruct (isspace c) eqn:Hc; [discriminate H|].
    injection H as <-. simpl. rewrite Hc. simpl. now rewrite Hc.
  - injection H as Hr.
    assert (Hfix : rstrip r = r) by congruence.
    assert (Hne : forall b, sub_ws b r <> EmptyString).
    { intros b Hb. apply sub_ws_empty, all_space_rstrip in Hb. congruence. }
    simpl. destruct (isspace c); [destruct in_run|].
    + now apply IH.
    + apply rstrip_cons_fixed; [now apply IH | apply Hne].
    + apply rstrip_cons_fixed; [now apply IH | apply Hne].
Qed.

Lemma strip_fixed_parts (s : string) :
  strip s = s -> lstrip s = s /\ rstrip s = s.
Proof.
  unfold strip. intros H. split.
  - rewrite <- H at 1.
    rewrite (lstrip_rstrip (lstrip s) (lstrip_idempotent s)). exact H.
  - rewrite <- H at 1. rewrite rstrip_idempotent. exact H.
Qed.

Lemma strip_sub_ws (s : string) :
  strip s = s -> strip (sub_ws false s) = sub_ws false s.
Proof.
  intros H. destruct (strip_fixed_parts s H) as [Hl Hr].
  unfold strip. rewrite (lstrip_sub_ws s Hl). now apply rstrip_sub_ws.
Qed.

(** X5. A normalized label is a canonical form: normalizing it again changes
    nothing, and the normalization of a label is also that of its lower-case
    text and that of its trimmed text. *)
Theorem normalize_sheet_type_canonical (label : string) :
  normalize_sheet_type (normalize_sheet_type label)
  = normalize_sheet_type label
  /\ normalize_sheet_type (lower label) = normalize_sheet_type label
  /\ normalize_sheet_type (strip label) = normalize_sheet_type label.
Proof.
  unfold normalize_sheet_type, re_sub_ws. repeat split.
  - assert (Hs : strip (sub_ws false (lower (strip label)))
                 = sub_ws false (lower (strip label))).
    { apply strip_sub_ws. rewrite <- strip_lower. apply strip_idempotent. }
    rewrite Hs, lower_sub_ws, lower_idempotent. apply sub_ws_idempotent.
  - now rewrite strip_lower, lower_idempotent.
  - now rewrite strip_idempotent.
Qed.

(** ** The first loop of the assembler *)

Lemma map_type_named_type (label col : string) :
  truthy col = true -> truthy (fst (map_type label col)) = true.
Proof.
  intros Hc. apply truthy_true.
  destruct (map_type_shape label col Hc) as [H|[H|[H|H]]]; rewrite ?H.
  - apply quote_ident_not_empty.
  - apply append_not_empty_l, quote_ident_not_empty.
  - simpl in H.
    repeat (destruct H as [<-|H]; [discriminate|]). destruct H.
  - discriminate.
Qed.

(** The loop with its two accumulators is a filter and a map over the rows:
    the rows with a name, in order, each giving its warnings and its
    column. *)
Lemma build_columns_filter_map (rows : list (string * string * string)) :
  forall w cols,
    build_columns rows w cols
    = (app w (flat_map warnings_of (filter named_row rows)),
       app cols (map column_of (filter named_row rows))).
Proof.
  induction rows as [|[[desc typelab] col] rows IH]; intros w cols.
  - simpl. now rewrite !app_nil_r.
  - assert (Hn : named_row (desc, typelab, col) = truthy (strip col))
      by reflexivity.
    cbn [build_columns filter]. rewrite Hn.
    destruct (truthy (strip col)) eqn:Hc; cbn [negb]; [|apply IH].
    pose proof (map_type_named_type (strip typelab) (strip col) Hc) as Hpg.
    cbn [flat_map map warnings_of column_of].
    destruct (map_type (strip typelab) (strip col)) as [pg wn].
    cbn [fst snd] in *. rewrite Hpg. cbn [negb].
    rewrite IH, <- !app_assoc. reflexivity.
Qed.

(** X6. The columns of the statement are exactly the rows that have a
    column name (one that is not blank), in their order, each with its quoted
    name, its mapped type and its comment: a row without a name gives no
    column, and no row with a name is dropped. *)
Theorem column_specs_named_rows (descriptions type_labels colnames : list string) :
  column_specs descriptions type_labels colnames
  = map column_of
        (filter named_row (zip3 descriptions type_labels colnames)).
Proof.
  unfold column_specs. now rewrite build_columns_filter_map.
Qed.

Lemma map_type_warnings_named (label col : string) :
  truthy col = true ->
  snd (map_type label col)
  = if set_mem (normalize_sheet_type label) KNOWN_LABELS then []
    else ["Unrecognized type '" ++ label ++ "' for column '" ++ col
          ++ "', defaulting to text."].
Proof.
  intros Hc. unfold KNOWN_LABELS. rewrite set_mem_app, dict_get_mem.
  unfold map_type, ENUM_LABELS, set_mem. cbn [existsb]. rewrite Hc.
  cbn [negb].
  destruct (String.eqb (normalize_sheet_type label) "enum");
    [now rewrite orb_true_r|].
  destruct (String.eqb (normalize_sheet_type label) "enum (multi select)");
    [now rewrite !orb_true_r|].
  rewrite !orb_false_r.
  destruct (dict_get SIMPLE_TYPE_MAP (normalize_sheet_type label));
    reflexivity.
Qed.

Lemma warnings_of_named_rows (rows : list (string * string * string)) :
  flat_map warnings_of (filter named_row rows)
  = map unrecognized (filter unknown_named rows).
Proof.
  induction rows as [|[[desc typelab] col] rows IH]; [reflexivity|].
  cbn [filter]. unfold named_row at 1, unknown_named at 1. cbn [snd].
  destruct (truthy (strip col)) eqn:Hc; cbn [andb]; [|exact IH].
  cbn [flat_map warnings_of].
  rewrite (map_type_warnings_named (strip typelab) (strip col) Hc), IH.
  destruct (set_mem (normalize_sheet_type (strip typelab)) KNOWN_LABELS);
    reflexivity.
Qed.

(** X7. The warnings of the statement are exactly the warnings "Unrecognized
    type '<label>' for column '<name>', defaulting to text." of the rows that
    have a column name and a type label that is not a known one, in the order
    of the rows and with the trimmed label and name.  A row without a name
    adds no warning, so the assembler never emits the two "... column without
    a name; skipped." warnings of [map_type]. *)
Theorem accumulated_warnings_named_rows
  (descriptions type_labels colnames : list string) :
  accumulated_warnings descriptions type_labels colnames
  = map unrecognized
        (filter unknown_named (zip3 descriptions type_labels colnames)).
Proof.
  unfold accumulated_warnings.
  rewrite build_columns_filter_map. cbn [fst app].
  apply warnings_of_named_rows.
Qed.

(** ** The second loop of the assembler *)

Lemma emit_columns_commas (init : list (string * string))
  (last : string * string) :
  forall n i,
    n = i + length init + 1 ->
    emit_columns n i (app init [last])
    = app (map comma_line init) [last_line last].
Proof.
  induction init as [|item init IH]; intros n i Hn; simpl in *.
  - destruct last as [d c]. rewrite column_line_split.
    unfold column_base, last_line.
    replace (Nat.eqb i (n - 1)) with true
      by (symmetry; apply Nat.eqb_eq; lia).
    cbn [fst snd]. now rewrite append_empty_r.
  - rewrite (IH n (S i)) by lia.
    destruct item as [d c]. rewrite column_line_split.
    unfold column_base, comma_line.
    replace (Nat.eqb i (n - 1)) with false
      by (symmetry; apply Nat.eqb_neq; lia).
    reflexivity.
Qed.

(** X8. The commas of the column lines: when the statement has columns,
    every column line but the last is the indented definition followed by a
    comma and then the inline comment, and the last is the definition with
    its comment and no comma.  With no column at all the closing line
    follows the surrogate-key line at once, and that line keeps its comma:
    the statement then has a comma directly before its closing
    parenthesis. *)
Theorem ddl_lines_commas (table_name : string)
  (descriptions type_labels colnames : list string) :
  let closing :=
    ");" :: warning_lines
              (accumulated_warnings descriptions type_labels colnames) in
  (column_specs descriptions type_labels colnames = [] ->
   ddl_lines table_name descriptions type_labels colnames
   = app (preamble table_name) closing
   /\ last (preamble table_name) EmptyString
      = "  id uuid primary key default gen_random_uuid(),")
  /\ (forall init last,
        column_specs descriptions type_labels colnames = app init [last] ->
        ddl_lines table_name descriptions type_labels colnames
        = app (preamble table_name)
              (app (map comma_line init) (last_line last :: closing))).
Proof.
  intros closing. unfold ddl_lines, closing, accumulated_warnings, column_specs.
  destruct (build_columns (zip3 descriptions type_labels colnames) [] [])
    as [w cols].
  cbn [fst snd]. fold (preamble table_name). split.
  - intros ->. split; reflexivity.
  - intros init last ->.
    rewrite (emit_columns_commas init last _ 0)
      by (rewrite length_app; simpl; lia).
    now rewrite <- !app_assoc.
Qed.

Lemma ddl_lines_commas_witness :
  ddl_lines "t" [EmptyString; "note"; "x"] ["Date"; "Text"; "Time"]
            ["a"; "b"; EmptyString]
  = app (preamble "t") ["  a date,"; "  b text  -- note"; ");"]
  /\ ddl_lines "t" ["note"] ["Text"] ["  "] = app (preamble "t") [");"].
Proof.
  split.
  - exact (proj2 (ddl_lines_commas "t" [EmptyString; "note"; "x"]
                    ["Date"; "Text"; "Time"] ["a"; "b"; EmptyString])
                 [("a date", EmptyString)] ("b text", "note") eq_refl).
  - exact (proj1 (proj1 (ddl_lines_commas "t" ["note"] ["Text"] ["  "])
                        eq_refl)).
Defined.

(** ** Inline comments *)

Lemma only_spaces_sub_ws (s : string) :
  forall in_run, only_spaces (sub_ws in_run s) = true.
Proof.
  unfold only_spaces.
  induction s as [|c s IH]; intros in_run; simpl; [reflexivity|].
  destruct (isspace c) eqn:Hc.
  - destruct in_run; simpl; auto.
  - simpl. now rewrite Hc, IH.
Qed.

Lemma only_spaces_no_linebreak (s : string) :
  only_spaces s = true -> no_linebreak s = true.
Proof.
  apply all_chars_impl. intros c.
  destruct c as [[] [] [] [] [] [] [] []]; vm_compute; intros H;
    first [reflexivity | exact H].
Qed.

(** X9. Whatever the description cells hold (tabs, line feeds, carriage
    returns and other white space included), every inline comment of the
    statement has the space character as its only white space: it holds no
    line boundary and so stays on the line of its column. *)
Theorem column_comments_one_line
  (descriptions type_labels colnames : list string) (comment : string) :
  In comment (column_comments descriptions type_labels colnames) ->
  only_spaces comment = true /\ no_linebreak comment = true.
Proof.
  unfold column_comments, column_specs.
  rewrite build_columns_filter_map. cbn [snd app].
  rewrite map_map. intros H.
  apply in_map_iff in H as ([[desc typelab] col] & <- & _).
  assert (Hs : only_spaces (snd (column_of (desc, typelab, col))) = true).
  { cbn [column_of snd].
    destruct (truthy (strip desc)); [apply only_spaces_sub_ws | reflexivity]. }
  split; [exact Hs | now apply only_spaces_no_linebreak].
Qed.

Lemma column_comments_one_line_witness :
  only_spaces "first second" = true /\ no_linebreak "first second" = true.
Proof.
  apply (column_comments_one_line
           ["first" ++ String LF (String CR "second")] ["Text"] ["a"]
           "first second").
  left. reflexivity.
Defined.

(** ** The row-swap heuristic *)

Lemma non_blank_repeat_empty (k : nat) : non_blank (repeat EmptyString k) = [].
Proof. induction k as [|k IH]; simpl; [reflexivity | exact IH]. Qed.

Lemma non_blank_pad_to (n : nat) (row : list string) :
  non_blank (pad_to n row) = non_blank row.
Proof.
  unfold pad_to, non_blank. rewrite filter_app.
  fold (non_blank (repeat EmptyString (n - length row))).
  now rewrite non_blank_repeat_empty, app_nil_r.
Qed.

(** Padding a row with empty cells does not change whether it looks like a
    row of type labels: the heuristic counts the cells that are not blank
    only. *)
Lemma looks_like_types_pad_to (n : nat) (row : list string) :
  looks_like_types (pad_to n row) = looks_like_types row.
Proof. now rewrite !looks_like_types_unfold, non_blank_pad_to. Qed.

(** X10. After the reader, the rows are never the wrong way round for the
    heuristic: whenever the returned column-name row looks like type labels,
    so does the returned type-label row.  The reader decides on the rows as
    parsed: it swaps exactly when the second parsed row does not look like
    types and the third does. *)
Theorem reader_rows_disambiguated (csv_sniff : string -> option string)
  (decode : list Byte.byte -> string -> option string)
  (raw : list Byte.byte) (delimiter : option string) (encoding : string)
  (text used : string) (r0 r1 r2 : list string) (more : list (list string)) :
  decode raw encoding = Some text ->
  delimiter_or_sniff csv_sniff delimiter text = Ok (Some used) ->
  Csv.reader (stringio_lines text) used = Ok (r0 :: r1 :: r2 :: more) ->
  let n := Nat.max (length r0) (Nat.max (length r1) (length r2)) in
  exists type_labels colnames,
    read_three_row_csv csv_sniff decode raw delimiter encoding
    = Ok (pad_to n r0, type_labels, colnames) /\
    (looks_like_types colnames = true -> looks_like_types type_labels = true)
    /\ (type_labels, colnames)
       = (if negb (looks_like_types r1) && looks_like_types r2
          then (pad_to n r2, pad_to n r1)
          else (pad_to n r1, pad_to n r2)).
Proof.
  intros Hdec Hdel Hrows n.
  rewrite (read_three_row_csv_rows _ _ _ _ _ _ _ _ _ _ _ Hdec Hdel Hrows).
  fold n. rewrite !looks_like_types_pad_to.
  destruct (looks_like_types r1) eqn:H1; destruct (looks_like_types r2) eqn:H2;
    cbn [negb andb]; eexists; eexists;
    (split; [reflexivity|]); rewrite !looks_like_types_pad_to;
    (split; [congruence | reflexivity]).
Qed.

Lemma reader_rows_disambiguated_witness :
  exists type_labels colnames,
    read_three_row_csv (fun _ => None) decode_latin1
      (file_of_lines ["a,b"; "name,String"; "Date"]) (Some ",") "latin-1"
    = Ok (["a"; "b"], type_labels, colnames) /\
    (looks_like_types colnames = true -> looks_like_types type_labels = true)
    /\ (type_labels, colnames)
       = (["Date"; EmptyString], ["name"; "String"]).
Proof.
  exact (reader_rows_disambiguated (fun _ => None) decode_latin1
           (file_of_lines ["a,b"; "name,String"; "Date"]) (Some ",")
           "latin-1"
           (string_of_list_byte (file_of_lines ["a,b"; "name,String"; "Date"]))
           "," ["a"; "b"] ["name"; "String"] ["Date"] []
           eq_refl eq_refl eq_refl).
Defined.

(** ** The delimiter sniffer *)

Lemma sniff_fallback_not_none (sample first_line : string)
  (rest : list string) :
  non_blank (splitlines sample) = first_line :: rest ->
  sniff_fallback sample <> Ok None.
Proof.
  intros E. destruct (first_non_blank_line _ _ _ E) as [Hne Hl].
  destruct (field_counts_or_raise first_line POSSIBLE_DELIMS
              (fun d H => H) Hne Hl) as [Hall | Hraise].
  - destruct (sniff_fallback_counts _ _ _ E Hall) as (d & n & H & _).
    rewrite H. discriminate.
  - destruct (sniff_fallback_raises _ _ _ E Hraise) as (m & H).
    rewrite H. discriminate.
Qed.

(** X11. [sniff_delimiter] returns none or one of the four candidates, or
    raises the error of the csv module, and nothing else.  It returns none
    exactly when the sample has no non-blank line and the statistical sniff
    gave no candidate (it failed, or returned a delimiter outside the
    candidates).  It does not raise when the first non-blank line of the
    sample has at most 131072 characters. *)
Theorem sniff_delimiter_result (csv_sniff : string -> option string)
  (sample : string) :
  (sniff_delimiter csv_sniff sample = Ok None \/
   (exists d, sniff_delimiter csv_sniff sample = Ok (Some d)
              /\ In d POSSIBLE_DELIMS) \/
   (exists m, sniff_delimiter csv_sniff sample = Raise (CsvError m)))
  /\ (sniff_delimiter csv_sniff sample = Ok None <->
      non_blank (splitlines sample) = [] /\
      forall d, csv_sniff sample = Some d -> ~ In d POSSIBLE_DELIMS)
  /\ ((forall first_line rest,
         non_blank (splitlines sample) = first_line :: rest ->
         within_limit first_line = true) ->
      exists r, sniff_delimiter csv_sniff sample = Ok r).
Proof.
  assert (Hfb : sniff_fallback sample = Ok None <->
                non_blank (splitlines sample) = []).
  { destruct (non_blank (splitlines sample)) as [|l ls] eqn:E.
    - split; [reflexivity | intros _; now apply sniff_fallback_blank].
    - split; [|discriminate]. intros H.
      exfalso. exact (sniff_fallback_not_none _ _ _ E H). }
  assert (Hok : (forall first_line rest,
                   non_blank (splitlines sample) = first_line :: rest ->
                   within_limit first_line = true) ->
                exists r, sniff_fallback sample = Ok r).
  { intros Hlim.
    destruct (non_blank (splitlines sample)) as [|l ls] eqn:E.
    - exists None. now apply sniff_fallback_blank.
    - destruct (first_non_blank_line _ _ _ E) as [Hne Hl].
      destruct (sniff_fallback_counts _ _ _ E) as (d & n & H & _).
      + intros d Hd. apply field_count_accepted; auto.
        exact (Hlim l ls eq_refl).
      + now exists (Some d). }
  split; [apply sniff_delimiter_outcome|]. split.
  - unfold sniff_delimiter.
    destruct (csv_sniff sample) as [d|].
    + destruct (set_mem d POSSIBLE_DELIMS) eqn:E.
      * apply set_mem_in in E. split; [discriminate|].
        intros [_ H]. exfalso. exact (H d eq_refl E).
      * rewrite Hfb. split; [|tauto]. intros H. split; [exact H|].
        intros d' [= <-] Hin. apply set_mem_in in Hin. congruence.
    + rewrite Hfb. split; [|tauto]. intros H. split; [exact H|]. discriminate.
  - intros Hlim. unfold sniff_delimiter.
    destruct (csv_sniff sample) as [d|]; [|now apply Hok].
    destruct (set_mem d POSSIBLE_DELIMS); [now eexists | now apply Hok].
Qed.

Section NoDelimiter.

Variable delim : ascii.

Lemma process_line_one_field (line : string) :
  forall r r',
    occurs delim line = false -> no_crnl line = true -> within r ->
    Csv.process_line delim r line = Ok r' ->
    (Csv.state r' = Csv.START_RECORD /\
     length (Csv.fields r') = S (length (Csv.fields r))) \/
    (Csv.state r' = Csv.IN_QUOTED_FIELD /\
     Csv.fields r' = Csv.fields r).
Proof.
  induction line as [|c line IH]; intros r r' Ho Hl Hr;
    cbn [Csv.process_line].
  - destruct (parse_eol_within delim r Hr) as (r1 & -> & _ & H).
    now intros [= <-].
  - simpl in Ho, Hl. apply orb_false_iff in Ho as [Hc Ho].
    apply andb_true_iff in Hl as [Hn Hl]. apply negb_true_iff in Hn.
    destruct (Csv.parse_process_char delim r (Some c)) as [r1|e] eqn:E;
      cbn [bind]; [|discriminate].
    destruct (parse_char_within delim r r1 c Hn (proj2 Hr) E)
      as (Hr1 & _ & Hf).
    intros H. rewrite <- (Hf Hc). now apply IH.
Qed.

(** A line without the delimiter is read as one field, when the reader
    returns. *)
Lemma reader_rows_unsplit_line (line : string) (rows : list (list string)) :
  line <> EmptyString -> occurs delim line = false -> no_crnl line = true ->
  Csv.reader_rows delim Csv.parse_reset [line] [] = Ok rows ->
  exists field, rows = [[field]].
Proof.
  destruct line as [|c line]; [congruence|]. intros _ Ho Hl.
  simpl in Ho, Hl. apply orb_false_iff in Ho as [Hc Ho].
  apply andb_true_iff in Hl as [Hn Hl]. apply negb_true_iff in Hn.
  cbn [Csv.reader_rows Csv.process_line].
  destruct (Csv.parse_process_char delim Csv.parse_reset (Some c))
    as [r1|e] eqn:E1; cbn [bind]; [|discriminate].
  destruct (parse_char_within delim Csv.parse_reset r1 c Hn
              ltac:(discriminate) E1) as (Hr1 & _ & Hf).
  specialize (Hf Hc). simpl in Hf.
  destruct (Csv.process_line delim r1 line) as [r'|e] eqn:Hp; cbn [bind];
    [|discriminate].
  destruct (process_line_one_field line r1 r' Ho Hl Hr1 Hp)
    as [[Hs Hlen] | [Hs Hfs]]; rewrite Hs; simpl.
  - rewrite Hf in Hlen. simpl in Hlen. intros [= <-].
    destruct (Csv.fields r') as [|x [|y l]]; simpl in Hlen; try lia.
    now exists x.
  - rewrite orb_true_r, Hfs, Hf. intros [= <-]. eexists. reflexivity.
Qed.

End NoDelimiter.

Lemma field_count_unsplit (first_line : string) (ch : ascii) (n : nat) :
  first_line <> EmptyString -> no_crnl first_line = true ->
  occurs ch first_line = false ->
  field_count first_line (String ch EmptyString) = Ok n -> n = 1.
Proof.
  intros Hne Hl Ho. unfold field_count, Csv.reader.
  destruct (Csv.reader_rows ch Csv.parse_reset [first_line] [])
    as [rows|e] eqn:E; cbn [bind]; [|discriminate].
  destruct (reader_rows_unsplit_line ch first_line rows Hne Ho Hl E)
    as (f & ->).
  now intros [= <-].
Qed.

(** X12. When the statistical sniff fails and the sniffer returns a
    delimiter, that delimiter is the comma unless it occurs in the first
    non-blank line of the sample: the sniffer never returns a tab, semicolon
    or pipe that the line does not hold. *)
Theorem sniffed_delimiter_occurs (csv_sniff : string -> option string)
  (sample first_line d : string) (rest : list string) :
  csv_sniff sample = None ->
  non_blank (splitlines sample) = first_line :: rest ->
  sniff_delimiter csv_sniff sample = Ok (Some d) ->
  d = "," \/ exists ch, d = String ch EmptyString
                        /\ occurs ch first_line = true.
Proof.
  intros Hfail Hlines Hres.
  unfold sniff_delimiter in Hres. rewrite Hfail in Hres.
  destruct (first_non_blank_line _ _ _ Hlines) as [Hne Hl].
  destruct (field_counts_or_raise first_line POSSIBLE_DELIMS
              (fun x H => H) Hne Hl) as [Hall | Hraise].
  2:{ destruct (sniff_fallback_raises _ _ _ Hlines Hraise) as (m & H).
      rewrite H in Hres. discriminate Hres. }
  destruct (sniff_fallback_counts _ _ _ Hlines Hall)
    as (d' & n & Hd & before & after & Hsplit & Hc & Hn & Hb & _).
  rewrite Hd in Hres. injection Hres as ->.
  destruct before as [|b before].
  - left. unfold POSSIBLE_DELIMS in Hsplit. simpl in Hsplit. congruence.
  - right.
    assert (Hin : In d POSSIBLE_DELIMS)
      by (rewrite Hsplit; apply in_or_app; right; now left).
    destruct (possible_delims_inv d Hin) as (ch & ->).
    exists ch. split; [reflexivity|].
    destruct (occurs ch first_line) eqn:Ho; [reflexivity|].
    exfalso.
    pose proof (field_count_unsplit first_line ch n Hne Hl Ho Hc) as ->.
    destruct (Hb b (or_introl eq_refl)) as (n' & Hb1 & Hlt).
    assert (Hbin : In b POSSIBLE_DELIMS)
      by (rewrite Hsplit; apply in_or_app; left; now left).
    pose proof (field_count_positive first_line b n' Hbin Hne Hl Hb1). lia.
Qed.

Lemma sniffed_delimiter_occurs_witness :
  ";" = "," \/ exists ch, ";" = String ch EmptyString
                          /\ occurs ch "a;b,c;d" = true.
Proof.
  exact (sniffed_delimiter_occurs (fun _ => None)
           ("  " ++ String LF "a;b,c;d") "a;b,c;d" ";" []
           eq_refl eq_refl eq_refl).
Defined.

(** ** Reading a file of plain cells *)

Section PlainRows.

Variable d : ascii.
Hypothesis d_plain : plain_delimiter d = true.

Lemma d_not_quote : Ascii.eqb d DQUOTE = false.
Proof.
  unfold plain_delimiter in d_plain.
  apply andb_true_iff in d_plain as [H _]. now apply negb_true_iff in H.
Qed.

Lemma d_not_crnl : Csv.is_crnl d = false.
Proof.
  unfold plain_delimiter in d_plain.
  apply andb_true_iff in d_plain as [_ H]. now apply negb_true_iff in H.
Qed.

Lemma process_line_app (a b : string) :
  forall r,
    Csv.process_line d r (a ++ b)
    = (r' <- process_chars d r a ;; Csv.process_line d r' b).
Proof.
  induction a as [|c a IH]; intros r; simpl; [reflexivity|].
  destruct (Csv.parse_process_char d r (Some c)); cbn [bind];
    [apply IH | reflexivity].
Qed.

(** The characters of a plain cell are added to the field being read, as
    long as the field stays within the limit. *)
Lemma process_chars_plain (f : string) :
  forall st fld flds,
    plain_field d f = true -> f <> EmptyString ->
    st = Csv.START_RECORD \/ st = Csv.START_FIELD \/ st = Csv.IN_FIELD ->
    (N.of_nat (String.length fld + String.length f) <= Csv.FIELD_LIMIT)%N ->
    process_chars d (Csv.mkReader st fld flds) f
    = Ok (Csv.mkReader Csv.IN_FIELD (fld ++ f) flds).
Proof.
  induction f as [|c f IH]; intros st fld flds Hp Hne Hst Hlim; [congruence|].
  simpl in Hp. apply andb_true_iff in Hp as [Hc Hp].
  apply andb_true_iff in Hc as [Hc Hcr]. apply andb_true_iff in Hc as [Hcd Hcq].
  apply negb_true_iff in Hcd, Hcq, Hcr.
  simpl String.length in Hlim.
  assert (Hat : forall st', Csv.at_limit (Csv.mkReader st' fld flds) = false).
  { intros st'. unfold Csv.at_limit, Csv.field_len. apply N.leb_gt.
    cbn [Csv.field]. lia. }
  assert (Hstep : Csv.parse_process_char d (Csv.mkReader st fld flds) (Some c)
                  = Ok (Csv.mkReader Csv.IN_FIELD
                          (fld ++ String c EmptyString) flds)).
  { destruct Hst as [-> | [-> | ->]];
      unfold Csv.parse_process_char, Csv.start_field, Csv.parse_add_char,
        Csv.set_state;
      cbn [Csv.state Csv.field Csv.fields];
      rewrite ?Hcr, ?Hcq, ?Hcd, ?Hat; reflexivity. }
  cbn [process_chars]. rewrite Hstep. cbn [bind].
  destruct f as [|c' f'].
  - reflexivity.
  - rewrite IH; [|exact Hp | discriminate | auto |].
    + now rewrite append_assoc.
    + rewrite length_append_char. lia.
Qed.

(** At the delimiter after a plain cell the cell is saved. *)
Lemma process_delimiter_after (f : string) (st : Csv.ParserState)
  (flds : list string) :
  plain_field d f = true -> within_limit f = true ->
  st = Csv.START_RECORD \/ st = Csv.START_FIELD ->
  exists r1,
    process_chars d (Csv.mkReader st EmptyString flds) f = Ok r1 /\
    Csv.parse_process_char d r1 (Some d)
    = Ok (Csv.mkReader Csv.START_FIELD EmptyString (app flds [f])).
Proof.
  intros Hp Hlim Hst. pose proof d_not_quote as Hq.
  pose proof d_not_crnl as Hc.
  unfold within_limit in Hlim. apply N.leb_le in Hlim.
  destruct f as [|c f].
  - eexists. split; [reflexivity|].
    destruct Hst as [-> | ->];
      unfold Csv.parse_process_char, Csv.start_field; simpl;
      rewrite ?Hc, ?Hq, ?Ascii.eqb_refl; reflexivity.
  - eexists. split.
    + apply process_chars_plain; [exact Hp | discriminate | tauto |].
      simpl String.length in *. lia.
    + unfold Csv.parse_process_char; simpl.
      rewrite Hc, Ascii.eqb_refl. reflexivity.
Qed.

(** The line of a plain row is read as that row. *)
Lemma process_line_plain_row (fs : list string) :
  forall f st flds,
    forallb (plain_field d) (f :: fs) = true ->
    forallb within_limit (f :: fs) = true ->
    st = Csv.START_FIELD \/
    (st = Csv.START_RECORD /\ (f <> EmptyString \/ fs <> [])) ->
    Csv.process_line d (Csv.mkReader st EmptyString flds) (csv_line d (f :: fs))
    = Ok (Csv.mkReader Csv.START_RECORD EmptyString (app flds (f :: fs))).
Proof.
  induction fs as [|g fs IH]; intros f st flds Hp Hlim Hst;
    simpl in Hp; apply andb_true_iff in Hp as [Hf Hp];
    cbn [forallb] in Hlim; apply andb_true_iff in Hlim as [Hlf Hlim].
  - (* the last cell, then the line feed *)
    unfold csv_line, join. cbn [String.concat].
    rewrite process_line_app.
    destruct f as [|c f].
    + cbn [process_chars bind].
      destruct Hst as [-> | [_ [H | H]]]; [|congruence|congruence].
      reflexivity.
    + rewrite process_chars_plain; [|exact Hf | discriminate | tauto |].
      * reflexivity.
      * unfold within_limit in Hlf. apply N.leb_le in Hlf.
        simpl String.length in *. lia.
  - (* a cell, the delimiter, and the rest of the line *)
    assert (Hline : csv_line d (f :: g :: fs)
                    = f ++ String d (csv_line d (g :: fs))).
    { unfold csv_line, join. cbn [String.concat].
      rewrite append_assoc. reflexivity. }
    rewrite Hline, process_line_app.
    destruct (process_delimiter_after f st flds Hf Hlf) as (r1 & -> & Hstep).
    { destruct Hst as [-> | [-> _]]; auto. }
    cbn [bind Csv.process_line]. rewrite Hstep. cbn [bind].
    rewrite IH; [|exact Hp | exact Hlim | now left].
    now rewrite <- app_assoc.
Qed.

Lemma plain_row_cells (row : list string) :
  plain_row d row = true -> forallb (plain_field d) row = true.
Proof.
  destruct row as [|f [|g fs]]; intros H.
  - discriminate H.
  - destruct f; [discriminate H | exact H].
  - destruct f; exact H.
Qed.

Lemma process_line_plain (row : list string) :
  plain_row d row = true ->
  forallb within_limit row = true ->
  Csv.process_line d Csv.parse_reset (csv_line d row)
  = Ok (Csv.mkReader Csv.START_RECORD EmptyString row).
Proof.
  intros H Hlim. pose proof (plain_row_cells row H) as Hcells.
  destruct row as [|f fs]; [discriminate H|].
  unfold Csv.parse_reset.
  apply (process_line_plain_row fs f Csv.START_RECORD []);
    [exact Hcells | exact Hlim |].
  right. split; [reflexivity|].
  destruct f as [|c f]; [|left; discriminate].
  destruct fs as [|g fs]; [discriminate H | right; discriminate].
Qed.

Lemma reader_rows_plain (rows : list (list string)) :
  forall acc,
    forallb (plain_row d) rows = true ->
    forallb (forallb within_limit) rows = true ->
    Csv.reader_rows d Csv.parse_reset (map (csv_line d) rows) acc
    = Ok (app acc rows).
Proof.
  induction rows as [|row rows IH]; intros acc Hp Hlim; simpl.
  - now rewrite app_nil_r.
  - simpl in Hp, Hlim. apply andb_true_iff in Hp as [Hr Hp].
    apply andb_true_iff in Hlim as [Hlr Hlim].
    rewrite (process_line_plain row Hr Hlr). simpl.
    rewrite IH by assumption. now rewrite <- app_assoc.
Qed.

Lemma no_lf_plain_field (f : string) :
  plain_field d f = true -> no_lf f = true.
Proof.
  apply all_chars_impl. intros c H.
  apply andb_true_iff in H as [_ H]. apply negb_true_iff in H.
  unfold Csv.is_crnl in H. apply orb_false_iff in H as [H _].
  now rewrite H.
Qed.

Lemma no_lf_join_plain (row : list string) :
  forallb (plain_field d) row = true ->
  no_lf (join (String d EmptyString) row) = true.
Proof.
  pose proof d_not_crnl as Hc. unfold Csv.is_crnl in Hc.
  apply orb_false_iff in Hc as [Hc _].
  induction row as [|f row IH]; [reflexivity|].
  intros H. simpl in H. apply andb_true_iff in H as [Hf Hr].
  unfold join in *. destruct row as [|g row].
  - simpl. now apply no_lf_plain_field.
  - change (String.concat (String d EmptyString) (f :: g :: row))
      with (f ++ String d EmptyString
              ++ String.concat (String d EmptyString) (g :: row)).
    rewrite !no_lf_app, (no_lf_plain_field f Hf), (IH Hr), andb_true_r.
    unfold no_lf. simpl. now rewrite Hc.
Qed.

Lemma stringio_lines_from_line (a rest : string) :
  forall cur,
    no_lf a = true ->
    stringio_lines_from cur (a ++ String LF rest)
    = (cur ++ a ++ String LF EmptyString)
        :: stringio_lines_from EmptyString rest.
Proof.
  induction a as [|c a IH]; intros cur H; simpl.
  - reflexivity.
  - unfold no_lf in H. simpl in H. apply andb_true_iff in H as [Hc Ha].
    apply negb_true_iff in Hc. rewrite Hc, (IH _ Ha), !append_assoc.
    reflexivity.
Qed.

Lemma stringio_lines_csv_text (rows : list (list string)) :
  forallb (plain_row d) rows = true ->
  stringio_lines (csv_text d rows) = map (csv_line d) rows.
Proof.
  unfold stringio_lines, csv_text.
  induction rows as [|row rows IH]; intros H; [reflexivity|].
  simpl in H. apply andb_true_iff in H as [Hr Hrows].
  assert (Hcat : String.concat EmptyString (map (csv_line d) (row :: rows))
                 = join (String d EmptyString) row
                   ++ String LF (String.concat EmptyString
                                   (map (csv_line d) rows))).
  { cbn [map String.concat].
    destruct (map (csv_line d) rows) as [|l ls] eqn:E.
    - unfold csv_line. reflexivity.
    - unfold csv_line at 1. cbn [append]. now rewrite append_assoc. }
  rewrite Hcat, stringio_lines_from_line
    by (apply no_lf_join_plain, plain_row_cells, Hr).
  rewrite (IH Hrows). reflexivity.
Qed.

(** A file of plain rows, with cells within the field limit, is parsed into
    those rows. *)
Lemma reader_csv_text (rows : list (list string)) :
  forallb (plain_row d) rows = true ->
  forallb (forallb within_limit) rows = true ->
  Csv.reader (stringio_lines (csv_text d rows)) (String d EmptyString)
  = Ok rows.
Proof.
  intros H Hlim. unfold Csv.reader.
  now rewrite (stringio_lines_csv_text rows H),
              (reader_rows_plain rows [] H Hlim).
Qed.

End PlainRows.

(** X13. A file of three or more plain rows (cells without the delimiter,
    double quotes, CR and LF, and of at most 131072 characters each; no empty
    line), read with its delimiter given explicitly, comes back as its first
    three rows, cell for cell, padded with empty cells to the longest of
    them, the second and third swapped when the heuristic says so; the
    sniffer is not consulted and further rows are ignored. *)
Theorem read_plain_file (csv_sniff : string -> option string)
  (decode : list Byte.byte -> string -> option string)
  (raw : list Byte.byte) (encoding : string) (d : ascii)
  (r0 r1 r2 : list string) (more : list (list string)) :
  plain_delimiter d = true ->
  forallb (plain_row d) (r0 :: r1 :: r2 :: more) = true ->
  forallb (forallb within_limit) (r0 :: r1 :: r2 :: more) = true ->
  decode raw encoding = Some (csv_text d (r0 :: r1 :: r2 :: more)) ->
  let n := Nat.max (length r0) (Nat.max (length r1) (length r2)) in
  read_three_row_csv csv_sniff decode raw (Some (String d EmptyString)) encoding
  = Ok (if negb (looks_like_types r1) && looks_like_types r2
        then (pad_to n r0, pad_to n r2, pad_to n r1)
        else (pad_to n r0, pad_to n r1, pad_to n r2)).
Proof.
  intros Hd Hrows Hlim Hdec n.
  rewrite (read_three_row_csv_rows csv_sniff decode raw
             (Some (String d EmptyString)) encoding _ (String d EmptyString)
             r0 r1 r2 more Hdec eq_refl (reader_csv_text d Hd _ Hrows Hlim)).
  fold n. now rewrite !looks_like_types_pad_to.
Qed.

Lemma read_plain_file_witness :
  read_three_row_csv (fun _ => Some ",") decode_latin1
    (file_of_lines ["Lead;;"; "String;Enum"; "name;status;"; "x;y"])
    (Some ";") "latin-1"
  = Ok (["Lead"; EmptyString; EmptyString],
        ["String"; "Enum"; EmptyString],
        ["name"; "status"; EmptyString]).
Proof.
  exact (read_plain_file (fun _ => Some ",") decode_latin1
           (file_of_lines ["Lead;;"; "String;Enum"; "name;status;"; "x;y"])
           "latin-1" ";"%char
           ["Lead"; EmptyString; EmptyString] ["String"; "Enum"]
           ["name"; "status"; EmptyString] [["x"; "y"]]
           eq_refl eq_refl eq_refl eq_refl).
Defined.

(** X14. A file of fewer than three plain rows (with cells of at most 131072
    characters), read with its delimiter given explicitly, raises the error
    "Expected a file with at least 3 rows, got N." with the number of rows of
    the file. *)
Theorem read_short_file (csv_sniff : string -> option string)
  (decode : list Byte.byte -> string -> option string)
  (raw : list Byte.byte) (encoding : string) (d : ascii)
  (rows : list (list string)) :
  plain_delimiter d = true ->
  forallb (plain_row d) rows = true ->
  forallb (forallb within_limit) rows = true ->
  length rows < 3 ->
  decode raw encoding = Some (csv_text d rows) ->
  read_three_row_csv csv_sniff decode raw (Some (String d EmptyString)) encoding
  = Raise (ValueError ("Expected a file with at least 3 rows, got "
                       ++ nat_to_str (length rows) ++ ".")).
Proof.
  intros Hd Hrows Hlim Hlen Hdec. unfold read_three_row_csv.
  rewrite Hdec. cbn [bind delimiter_or_sniff truthy].
  rewrite (reader_csv_text d Hd rows Hrows Hlim). cbn [bind].
  destruct rows as [|a [|b [|c more]]]; try reflexivity.
  simpl in Hlen. lia.
Qed.

Lemma read_short_file_witness :
  read_three_row_csv (fun _ => None) decode_latin1
    (file_of_lines ["Lead,Stage"; "String,Enum"]) (Some ",") "latin-1"
  = Raise (ValueError "Expected a file with at least 3 rows, got 2.").
Proof.
  exact (read_short_file (fun _ => None) decode_latin1
           (file_of_lines ["Lead,Stage"; "String,Enum"]) "latin-1" ","%char
           [["Lead"; "Stage"]; ["String"; "Enum"]]
           eq_refl eq_refl eq_refl ltac:(simpl; lia) eq_refl).
Defined.

(** X15. An explicit delimiter of two characters or more is never replaced by
    a sniffed one: once the bytes are decoded the reader raises the
    [TypeError] of [csv.reader], whatever the text.  The two characters
    backslash and t, which the message of the script suggests, are such a
    delimiter. *)
Theorem long_delimiter_type_error (csv_sniff : string -> option string)
  (decode : list Byte.byte -> string -> option string)
  (raw : list Byte.byte) (encoding text delimiter : string) :
  decode raw encoding = Some text ->
  2 <= String.length delimiter ->
  read_three_row_csv csv_sniff decode raw (Some delimiter) encoding
  = Raise TypeError.
Proof.
  intros Hdec Hlen. unfold read_three_row_csv. rewrite Hdec.
  destruct delimiter as [|a [|b rest]]; simpl in Hlen; try lia.
  reflexivity.
Qed.

Lemma long_delimiter_type_error_witness :
  read_three_row_csv (fun _ => Some ",") decode_latin1
    (file_of_lines ["a,b"; "String,Enum"; "x,y"]) (Some "\t") "latin-1"
  = Raise TypeError.
Proof.
  exact (long_delimiter_type_error (fun _ => Some ",") decode_latin1
           (file_of_lines ["a,b"; "String,Enum"; "x,y"]) "latin-1"
           (string_of_list_byte (file_of_lines ["a,b"; "String,Enum"; "x,y"]))
           "\t" eq_refl ltac:(simpl; lia)).
Defined.

(** X16. A text without a non-blank line (an empty file, or one of blank
    lines only), read with no delimiter or the empty one while the
    statistical sniff fails, raises the error "Could not detect a
    delimiter ...": the rows are not counted. *)
Theorem blank_text_no_delimiter (csv_sniff : string -> option string)
  (decode : list Byte.byte -> string -> option string)
  (raw : list Byte.byte) (encoding text : string)
  (delimiter : option string) :
  decode raw encoding = Some text ->
  non_blank (splitlines text) = [] ->
  csv_sniff text = None ->
  delimiter = None \/ delimiter = Some EmptyString ->
  read_three_row_csv csv_sniff decode raw delimiter encoding
  = Raise (ValueError NO_DELIMITER).
Proof.
  intros Hdec Hblank Hfail Hdel. unfold read_three_row_csv. rewrite Hdec.
  assert (Hs : delimiter_or_sniff csv_sniff delimiter text = Ok None).
  { pose proof (sniff_fallback_blank text Hblank) as H.
    destruct Hdel as [-> | ->]; cbn [delimiter_or_sniff truthy];
      unfold sniff_delimiter; now rewrite Hfail. }
  cbn [bind]. rewrite Hs. reflexivity.
Qed.

Lemma blank_text_no_delimiter_witness :
  read_three_row_csv (fun _ => None) decode_latin1
    (file_of_lines [EmptyString; "   "; EmptyString]) None "latin-1"
  = Raise (ValueError NO_DELIMITER).
Proof.
  exact (blank_text_no_delimiter (fun _ => None) decode_latin1
           (file_of_lines [EmptyString; "   "; EmptyString]) "latin-1"
           (string_of_list_byte
              (file_of_lines [EmptyString; "   "; EmptyString]))
           None eq_refl eq_refl eq_refl (or_introl eq_refl)).
Defined.

(** ** Rows of different lengths *)

Lemma zip3_names (descriptions : list string) :
  forall type_labels colnames,
    length colnames <= length descriptions ->
    length colnames <= length type_labels ->
    map snd (zip3 descriptions type_labels colnames) = colnames.
Proof.
  induction descriptions as [|x ds IH]; intros [|y ts] [|z ns] H1 H2;
    simpl in *; try lia; try reflexivity.
  rewrite IH by lia. reflexivity.
Qed.

Lemma filter_named_rows (rows : list (string * string * string)) :
  map snd (filter named_row rows) = non_blank (map snd rows).
Proof.
  induction rows as [|row rows IH]; simpl; [reflexivity|].
  unfold named_row at 1. destruct (truthy (strip (snd row))); simpl;
    now rewrite IH.
Qed.

(** X17. When the description row and the type-label row are at least as long
    as the column-name row (the reader returns rows of equal length), the
    statement has exactly one column for every name cell that is not blank:
    a missing or unknown type label never removes a column. *)
Theorem one_column_per_name (descriptions type_labels colnames : list string) :
  length colnames <= length descriptions ->
  length colnames <= length type_labels ->
  length (column_specs descriptions type_labels colnames)
  = length (non_blank colnames).
Proof.
  intros H1 H2. unfold column_specs.
  rewrite build_columns_filter_map. cbn [snd app]. rewrite length_map.
  rewrite <- (zip3_names descriptions type_labels colnames H1 H2) at 2.
  rewrite <- filter_named_rows. now rewrite length_map.
Qed.

Lemma one_column_per_name_witness :
  length (column_specs ["a"; "b"; "c"] [EmptyString; "Enum"; "Nonsense"]
                       ["x"; "  "; "z"]) = 2.
Proof.
  exact (one_column_per_name ["a"; "b"; "c"] [EmptyString; "Enum"; "Nonsense"]
           ["x"; "  "; "z"] ltac:(simpl; lia) ltac:(simpl; lia)).
Defined.

Lemma zip3_firstn (a : list string) :
  forall b c,
    zip3 a b c
    = zip3 (firstn (Nat.min (length a) (Nat.min (length b) (length c))) a)
           (firstn (Nat.min (length a) (Nat.min (length b) (length c))) b)
           (firstn (Nat.min (length a) (Nat.min (length b) (length c))) c).
Proof.
  induction a as [|x a IH]; intros [|y b] [|z c]; try reflexivity.
  simpl. now rewrite <- IH.
Qed.

(** X18. The assembler reads the three rows in lock-step up to the shortest
    of them: the cells beyond that length, in any row, have no effect on the
    statement (a name cell without a type-label cell or a description cell
    gives no column and no warning). *)
Theorem generate_shortest_row (table_name : string)
  (descriptions type_labels colnames : list string) :
  let m := Nat.min (length descriptions)
                   (Nat.min (length type_labels) (length colnames)) in
  generate_create_table_sql table_name descriptions type_labels colnames
  = generate_create_table_sql table_name (firstn m descriptions)
      (firstn m type_labels) (firstn m colnames).
Proof.
  intros m. unfold generate_create_table_sql, ddl_lines.
  now rewrite (zip3_firstn descriptions type_labels colnames).
Qed.

(** ** A first line over the field limit *)

Lemma process_chars_over_limit (d : ascii) (f : string) :
  forall st fld flds,
    plain_field d f = true ->
    st = Csv.START_RECORD \/ st = Csv.START_FIELD \/ st = Csv.IN_FIELD ->
    (N.of_nat (String.length fld) <= Csv.FIELD_LIMIT)%N ->
    (Csv.FIELD_LIMIT < N.of_nat (String.length fld + String.length f))%N ->
    exists m, process_chars d (Csv.mkReader st fld flds) f
              = Raise (CsvError m).
Proof.
  induction f as [|c f IH]; intros st fld flds Hp Hst Hle Hgt.
  - simpl in Hgt. lia.
  - simpl in Hp. apply andb_true_iff in Hp as [Hc Hp].
    apply andb_true_iff in Hc as [Hc Hcr].
    apply andb_true_iff in Hc as [Hcd Hcq].
    apply negb_true_iff in Hcd, Hcq, Hcr.
    cbn [process_chars].
    destruct (Csv.at_limit (Csv.mkReader Csv.IN_FIELD fld flds)) eqn:Hat.
    + assert (Hat' : forall st', Csv.at_limit (Csv.mkReader st' fld flds)
                                 = true) by (intros st'; exact Hat).
      assert (Hstep : exists m,
                 Csv.parse_process_char d (Csv.mkReader st fld flds) (Some c)
                 = Raise (CsvError m)).
      { destruct Hst as [-> | [-> | ->]];
          unfold Csv.parse_process_char, Csv.start_field, Csv.parse_add_char,
            Csv.set_state;
          cbn [Csv.state Csv.field Csv.fields];
          rewrite ?Hcr, ?Hcq, ?Hcd, ?Hat'; cbn [bind]; eexists; reflexivity. }
      destruct Hstep as (m & ->). cbn [bind]. now exists m.
    + assert (Hat' : forall st', Csv.at_limit (Csv.mkReader st' fld flds)
                                 = false) by (intros st'; exact Hat).
      assert (Hstep :
                 Csv.parse_process_char d (Csv.mkReader st fld flds) (Some c)
                 = Ok (Csv.mkReader Csv.IN_FIELD
                         (fld ++ String c EmptyString) flds)).
      { destruct Hst as [-> | [-> | ->]];
          unfold Csv.parse_process_char, Csv.start_field, Csv.parse_add_char,
            Csv.set_state;
          cbn [Csv.state Csv.field Csv.fields];
          rewrite ?Hcr, ?Hcq, ?Hcd, ?Hat'; reflexivity. }
      rewrite Hstep. cbn [bind].
      unfold Csv.at_limit, Csv.field_len in Hat. cbn [Csv.field] in Hat.
      apply N.leb_gt in Hat.
      apply IH; [exact Hp | auto | |]; rewrite length_append_char;
        simpl String.length in Hgt; lia.
Qed.

Lemma field_count_over_limit (ch : ascii) (first_line : string) :
  plain_field ch first_line = true ->
  within_limit first_line = false ->
  exists m, field_count first_line (String ch EmptyString)
            = Raise (CsvError m).
Proof.
  intros Hp Hlim. unfold within_limit in Hlim. apply N.leb_gt in Hlim.
  destruct (process_chars_over_limit ch first_line Csv.START_RECORD
              EmptyString [] Hp (or_introl eq_refl))
    as (m & Hm); [simpl; lia | simpl; lia |].
  exists m. unfold field_count, Csv.reader. cbn [Csv.reader_rows].
  rewrite <- (append_empty_r first_line) at 1.
  rewrite process_line_app.
  unfold Csv.parse_reset. rewrite Hm. reflexivity.
Qed.

(** X19. When the statistical sniff fails and the first non-blank line of
    the sample has more than 131072 characters, none of them a comma, a
    double quote, CR or LF, [sniff_delimiter] raises the error of the csv
    module: the fallback calls [csv.reader] outside the [try], and the line
    is one field over the field size limit. *)
Theorem sniff_long_line_raises (csv_sniff : string -> option string)
  (sample first_line : string) (rest : list string) :
  csv_sniff sample = None ->
  non_blank (splitlines sample) = first_line :: rest ->
  plain_field ","%char first_line = true ->
  within_limit first_line = false ->
  exists m, sniff_delimiter csv_sniff sample = Raise (CsvError m).
Proof.
  intros Hfail Hlines Hp Hlim.
  destruct (field_count_over_limit ","%char first_line Hp Hlim) as (m & Hm).
  exists m. unfold sniff_delimiter. rewrite Hfail.
  unfold sniff_fallback. fold (non_blank (splitlines sample)). rewrite Hlines.
  unfold POSSIBLE_DELIMS. cbn [best_delimiter]. rewrite Hm. reflexivity.
Qed.

Lemma no_space_lstrip (s : string) :
  all_chars (fun c => negb (isspace c)) s = true -> lstrip s = s.
Proof.
  destruct s as [|c r]; [reflexivity|]. simpl. intros H.
  apply andb_true_iff in H as [Hc _]. apply negb_true_iff in Hc.
  now rewrite Hc.
Qed.

Lemma no_space_rstrip (s : string) :
  all_chars (fun c => negb (isspace c)) s = true -> rstrip s = s.
Proof.
  induction s as [|c r IH]; [reflexivity|]. simpl. intros H.
  apply andb_true_iff in H as [Hc Hr]. apply negb_true_iff in Hc.
  rewrite (IH Hr). destruct r; [now rewrite Hc | reflexivity].
Qed.

Lemma splitlines_from_one_line (s : string) :
  forall cur,
    no_linebreak s = true ->
    splitlines_from cur s = if truthy (cur ++ s) then [cur ++ s] else [].
Proof.
  induction s as [|c s IH]; intros cur H; simpl.
  - now rewrite append_empty_r.
  - unfold no_linebreak in H. simpl in H. apply andb_true_iff in H as [Hc Hs].
    apply negb_true_iff in Hc. rewrite Hc, (IH _ Hs), append_assoc.
    reflexivity.
Qed.

(** A text without white space is its own only non-blank line. *)
Lemma non_blank_one_line (s : string) :
  s <> EmptyString ->
  all_chars (fun c => negb (isspace c)) s = true ->
  non_blank (splitlines s) = [s].
Proof.
  intros Hne Hs.
  assert (Hlb : no_linebreak s = true).
  { revert Hs. apply all_chars_impl. intros c H.
    destruct (is_linebreak c) eqn:E; [|reflexivity].
    exfalso. revert H E. clear.
    destruct c as [[] [] [] [] [] [] [] []]; vm_compute; congruence. }
  unfold splitlines. rewrite (splitlines_from_one_line s EmptyString Hlb).
  cbn [append]. destruct s as [|c r]; [congruence|].
  cbn [truthy non_blank filter]. unfold strip.
  rewrite (no_space_lstrip _ Hs), (no_space_rstrip _ Hs). reflexivity.
Qed.

Lemma sniff_long_line_raises_witness :
  exists m, sniff_delimiter (fun _ => None) long_line = Raise (CsvError m).
Proof.
  apply (sniff_long_line_raises (fun _ => None) long_line long_line []).
  - reflexivity.
  - apply non_blank_one_line; [discriminate | vm_compute; reflexivity].
  - vm_compute; reflexivity.
  - vm_compute; reflexivity.
Defined.
